(** * streetsmart: GPS metadata parsing and clip association

    A shallow embedding of [video_processor.py]: the metadata parser
    ([parse_gps_data]), the per-clip time windows and the associator
    ([associate_gps_with_clips]) and their caller ([process_single_file]).

    Conventions of the embedding.
    - Text is a list of 8-bit characters (code points 0..255); the character
      classes [\d] and [\s] are those of Python's [re] on [str], restricted to
      that range.
    - A naive [datetime] is represented by the number of seconds since
      0001-01-01T00:00:00 in the proleptic Gregorian calendar, that is
      [(toordinal() - 1) * 86400 + hour * 3600 + minute * 60 + second].
      Every datetime of this program has a zero microsecond field (they come
      from [strptime] formats without [%f] and from whole-second timedeltas).
      Comparison of naive datetimes is comparison of these numbers; adding a
      timedelta is addition, raising [OverflowError] outside years 1..9999.
    - Exceptions are values of [result]; [try/except Exception] is a match. *)

From Stdlib Require Import ZArith QArith Qabs Ascii String Lia.
From stdpp Require Import base tactics option list numbers strings sorting.

Open Scope Z_scope.

(** ** Exceptions *)

Inductive exn : Type :=
| ValueError
| OverflowError.

Inductive result (A : Type) : Type :=
| Ok (a : A)
| Raise (e : exn).
Arguments Ok {A} a.
Arguments Raise {A} e.

#[global] Instance result_ret : MRet result := fun A a => Ok a.
#[global] Instance result_bind : MBind result := fun A B f m =>
  match m with
  | Ok a => f a
  | Raise e => Raise e
  end.

(** ** Dates and times (CPython's [datetime] arithmetic) *)

Definition datetime : Type := Z.

Definition MINYEAR : Z := 1.
Definition MAXYEAR : Z := 9999.

Definition _is_leap (year : Z) : bool :=
  (year mod 4 =? 0) && (negb (year mod 100 =? 0) || (year mod 400 =? 0)).

(** [_days_before_year]: number of days before January 1st of [year]. *)
Definition _days_before_year (year : Z) : Z :=
  let y := year - 1 in
  y * 365 + y / 4 - y / 100 + y / 400.

Definition _DAYS_IN_MONTH (month : Z) : Z :=
  match month with
  | 1 => 31 | 2 => 28 | 3 => 31 | 4 => 30 | 5 => 31 | 6 => 30
  | 7 => 31 | 8 => 31 | 9 => 30 | 10 => 31 | 11 => 30 | 12 => 31
  | _ => 0
  end.

Definition _DAYS_BEFORE_MONTH (month : Z) : Z :=
  match month with
  | 1 => 0 | 2 => 31 | 3 => 59 | 4 => 90 | 5 => 120 | 6 => 151
  | 7 => 181 | 8 => 212 | 9 => 243 | 10 => 273 | 11 => 304 | 12 => 334
  | _ => 0
  end.

Definition _days_in_month (year month : Z) : Z :=
  if (month =? 2) && _is_leap year then 29 else _DAYS_IN_MONTH month.

Definition _days_before_month (year month : Z) : Z :=
  _DAYS_BEFORE_MONTH month + (if (2 <? month) && _is_leap year then 1 else 0).

Definition _ymd2ord (year month day : Z) : Z :=
  _days_before_year year + _days_before_month year month + day.

(** [date.max.toordinal()]. *)
Definition _MAXORDINAL : Z := 3652059.

Definition MAX_DATETIME : Z := _MAXORDINAL * 86400 - 1.

Definition datetime_in_range (t : Z) : Prop := 0 <= t <= MAX_DATETIME.

(** The constructor [datetime(year, month, day, hour, minute, second)]:
    [ValueError] when a field is out of range. *)
Definition datetime_new (year month day hour minute second : Z) : result datetime :=
  if (MINYEAR <=? year) && (year <=? MAXYEAR)
     && (1 <=? month) && (month <=? 12)
     && (1 <=? day) && (day <=? _days_in_month year month)
     && (0 <=? hour) && (hour <=? 23)
     && (0 <=? minute) && (minute <=? 59)
     && (0 <=? second) && (second <=? 59)
  then Ok ((_ymd2ord year month day - 1) * 86400 + hour * 3600 + minute * 60 + second)
  else Raise ValueError.

(** [_ord2ymd]: the (year, month, day) of a proleptic Gregorian ordinal. *)
Definition _ord2ymd (ordinal : Z) : Z * Z * Z :=
  let n := ordinal - 1 in
  let n400 := n / 146097 in
  let n := n mod 146097 in
  let year := n400 * 400 + 1 in
  let n100 := n / 36524 in
  let n := n mod 36524 in
  let n4 := n / 1461 in
  let n := n mod 1461 in
  let n1 := n / 365 in
  let n := n mod 365 in
  let year := year + n100 * 100 + n4 * 4 + n1 in
  if (n1 =? 4) || (n100 =? 4) then (year - 1, 12, 31)
  else
    let leapyear := (n1 =? 3) && (negb (n4 =? 24) || (n100 =? 3)) in
    let month := (n + 50) / 32 in
    let preceding :=
      _DAYS_BEFORE_MONTH month + (if (2 <? month) && leapyear then 1 else 0) in
    let '(month, preceding) :=
      if n <? preceding
      then (month - 1,
            preceding - (if (month - 1 =? 2) && leapyear then 29
                         else _DAYS_IN_MONTH (month - 1)))
      else (month, preceding) in
    (year, month, n - preceding + 1).

(** The fields (year, month, day, hour, minute, second) of a datetime. *)
Definition datetime_fields (t : datetime) : Z * Z * Z * Z * Z * Z :=
  let '(y, m, d) := _ord2ymd (t / 86400 + 1) in
  let s := t mod 86400 in
  (y, m, d, s / 3600, (s mod 3600) / 60, s mod 60).

(** [dt + timedelta(seconds=secs)].  A timedelta too large for its own range
    makes the sum leave the datetime range as well, and both raise
    [OverflowError]. *)
Definition datetime_add_seconds (dt : datetime) (secs : Z) : result datetime :=
  let t := dt + secs in
  if (0 <=? t) && (t <=? MAX_DATETIME) then Ok t else Raise OverflowError.

(** ** Text and character classes *)

Definition text : Type := list ascii.

Definition code (c : ascii) : Z := Z.of_N (N_of_ascii c).

(** [\d]: the decimal digits below code point 256 are ['0'..'9']. *)
Definition is_digit (c : ascii) : bool := (48 <=? code c) && (code c <=? 57).

(** [\s] on [str]: tab, LF, VT, FF, CR, the separators 0x1C..0x1F, space,
    NEL (0x85) and the no-break space (0xA0). *)
Definition is_space (c : ascii) : bool :=
  ((9 <=? code c) && (code c <=? 13)) || ((28 <=? code c) && (code c <=? 32))
  || (code c =? 133) || (code c =? 160).

(** [[+-]] *)
Definition is_sign (c : ascii) : bool := (code c =? 43) || (code c =? 45).

Definition is_char (a : ascii) (c : ascii) : bool := Ascii.eqb a c.

(** ** A backtracking matcher for the fragment of [re] the pattern uses

    [Rep p lo hi] is the greedy repetition of a character class, between [lo]
    and [hi] times ([None]: unbounded).  [run r s] lists every way [r] matches
    a prefix of [s], in the order a backtracking matcher tries them; each
    entry holds the captured groups, the matched prefix and the remaining
    text.  The first entry is the match [re] reports. *)

Inductive regex : Type :=
| Cls (p : ascii -> bool)
| Rep (p : ascii -> bool) (lo : nat) (hi : option nat)
| Cat (r1 r2 : regex)
| Grp (r : regex).

Definition may_take (hi : option nat) : bool :=
  match hi with
  | Some O => false
  | _ => true
  end.

Definition stop_here (lo : nat) (s : text) : list (text * text) :=
  match lo with
  | O => [([], s)]
  | S _ => []
  end.

Fixpoint rep_splits (p : ascii -> bool) (lo : nat) (hi : option nat) (s : text)
  : list (text * text) :=
  match s with
  | c :: s' =>
    if p c && may_take hi
    then ((fun wr => (c :: wr.1, wr.2)) <$> rep_splits p (pred lo) (pred <$> hi) s')
         ++ stop_here lo s
    else stop_here lo s
  | [] => stop_here lo s
  end.

Fixpoint run (r : regex) (s : text) : list (list text * text * text) :=
  match r with
  | Cls p =>
    match s with
    | c :: s' => if p c then [([], [c], s')] else []
    | [] => []
    end
  | Rep p lo hi => (fun wr => ([], wr.1, wr.2)) <$> rep_splits p lo hi s
  | Cat r1 r2 =>
    m1 ← run r1 s;
    m2 ← run r2 m1.2;
    [(m1.1.1 ++ m2.1.1, m1.1.2 ++ m2.1.2, m2.2)]
  | Grp r' => m ← run r' s; [(m.1.2 :: m.1.1, m.1.2, m.2)]
  end.

(** [pattern.match] anchored at the start of [s]. *)
Definition match_at (r : regex) (s : text) : option (list text * text * text) :=
  head (run r s).

(** [pattern.findall(s)]: scan left to right; after a match the scan resumes
    at its end ([skip] counts the characters of the last match still to be
    passed over).  An empty match advances by one character. *)
Fixpoint findall_from (r : regex) (skip : nat) (s : text) : list (list text) :=
  match skip with
  | S k =>
    match s with
    | [] => []
    | _ :: s' => findall_from r k s'
    end
  | O =>
    match match_at r s with
    | Some m =>
      m.1.1 :: match s with
               | [] => []
               | _ :: s' => findall_from r (pred (length m.1.2)) s'
               end
    | None =>
      match s with
      | [] => []
      | _ :: s' => findall_from r 0 s'
      end
    end
  end.

Definition findall (r : regex) (s : text) : list (list text) := findall_from r 0 s.

Definition lit (a : ascii) : regex := Cls (is_char a).
Definition digits (n : nat) : regex := Rep is_digit n (Some n).

Fixpoint cat (rs : list regex) : regex :=
  match rs with
  | [] => Rep is_digit 0 (Some 0%nat)
  | [r] => r
  | r :: rs' => Cat r (cat rs')
  end.

(** [\d{4}:\d{2}:\d{2} \d{2}:\d{2}:\d{2}Z] *)
Definition re_timestamp : regex :=
  cat [digits 4; lit ":"; digits 2; lit ":"; digits 2; lit " ";
       digits 2; lit ":"; digits 2; lit ":"; digits 2; lit "Z"].

(** [\d+\.\d+] *)
Definition re_decimal : regex :=
  cat [Rep is_digit 1 None; lit "."; Rep is_digit 1 None].

(** [(\d{4}:\d{2}:\d{2} \d{2}:\d{2}:\d{2}Z)\s*([+-]?\d+\.\d+)\s*([+-]\d+\.\d+)] *)
Definition pattern : regex :=
  cat [Grp re_timestamp;
       Rep is_space 0 None;
       Grp (Cat (Rep is_sign 0 (Some 1%nat)) re_decimal);
       Rep is_space 0 None;
       Grp (Cat (Cls is_sign) re_decimal)].

Definition txt (s : string) : text := list_ascii_of_string s.

Definition canonical : text :=
  txt "2025:03:31 23:00:35Z41.7698047868907-88.120337175205329".

(** ** Floats

    A Python float that is not a NaN: [Finite neg m e] is
    [(-1)^neg * m * 2^e] with [0 <= m < 2^53] and [-1074 <= e <= 971];
    a non-zero one is normalised ([2^52 <= m], or [e = -1074]) and zero is
    [Finite neg 0 0]. *)

Inductive pyfloat : Type :=
| Finite (neg : bool) (m : Z) (e : Z)
| Infinity (neg : bool).

(** Does [n / d >= 2^l] hold? *)
Definition ratio_ge_pow2 (n d l : Z) : bool :=
  if 0 <=? l then d * 2 ^ l <=? n else d <=? n * 2 ^ (- l).

(** The binary64 nearest to [n / d] (ties to even), for [0 <= n] and [0 < d]:
    what [float()] computes from a decimal numeral. *)
Definition round_binary64 (neg : bool) (n d : Z) : pyfloat :=
  if n =? 0 then Finite neg 0 0
  else
    let l := Z.log2 n - Z.log2 d in
    let fl := if ratio_ge_pow2 n d l then l else l - 1 in
    let e := Z.max (fl - 52) (-1074) in
    let num := if e <? 0 then n * 2 ^ (- e) else n in
    let den := if e <? 0 then d else d * 2 ^ e in
    let q := num / den in
    let r := num mod den in
    let q := if (den <? 2 * r) || ((2 * r =? den) && Z.odd q) then q + 1 else q in
    let '(m, e) := if q =? 2 ^ 53 then (2 ^ 52, e + 1) else (q, e) in
    if m =? 0 then Finite neg 0 0
    else if 971 <? e then Infinity neg
    else Finite neg m e.

Definition digit_value (c : ascii) : Z := code c - 48.

(** [int(ds)] for a run of decimal digits. *)
Definition int_of_digits (ds : text) : Z :=
  fold_left (fun acc c => 10 * acc + digit_value c) ds 0.

(** [s.partition(".")] without the separator: the text before the first
    point and the text after it. *)
Fixpoint split_at_dot (s : text) : option (text * text) :=
  match s with
  | [] => None
  | c :: s' =>
    if is_char "." c then Some ([], s')
    else (fun wr => (c :: wr.1, wr.2)) <$> split_at_dot s'
  end.

Definition nonempty (s : text) : bool :=
  match s with
  | [] => false
  | _ :: _ => true
  end.

(** [float(s)] on the numerals groups 2 and 3 of [pattern] capture: an
    optional sign, digits, a point, digits.  Other spellings that [float]
    accepts (exponents, [inf], [nan], surrounding blanks) never reach it from
    [parse_gps_data]; on them this model raises [ValueError]. *)
Definition float_of_text (s : text) : result pyfloat :=
  let '(neg, body) :=
    match s with
    | c :: s' => if is_sign c then (code c =? 45, s') else (false, s)
    | [] => (false, s)
    end in
  match split_at_dot body with
  | Some (ip, fp) =>
    if nonempty ip && forallb is_digit ip && nonempty fp && forallb is_digit fp
    then Ok (round_binary64 neg (int_of_digits (ip ++ fp)) (10 ^ Z.of_nat (length fp)))
    else Raise ValueError
  | None => Raise ValueError
  end.

(** ** The metadata parser *)

Record GpsRecord : Type := mkGpsRecord {
  timestamp : datetime;
  latitude : pyfloat;
  longitude : pyfloat
}.

(** [s[i:i+n]] *)
Definition field (s : text) (i n : nat) : text := take n (drop i s).

(** [datetime.strptime(ts_str, "%Y:%m:%d %H:%M:%SZ")] on the 20-character
    texts group 1 of [pattern] captures (four- and two-digit fields).  On
    these the directives [%m %d %H %M %S] accept 01..12, 01..31, 00..23,
    00..59 and 00..61; the date must exist and a second above 59 is refused
    by the datetime constructor.  Every failure is a [ValueError]. *)
Definition strptime (ts_str : text) : result datetime :=
  let s := ts_str in
  if (length s =? 20)%nat
     && forallb is_digit (field s 0 4 ++ field s 5 2 ++ field s 8 2
                          ++ field s 11 2 ++ field s 14 2 ++ field s 17 2)
     && bool_decide (field s 4 1 ++ field s 7 1 ++ field s 10 1
                     ++ field s 13 1 ++ field s 16 1 ++ field s 19 1
                     = txt ":: ::Z")
  then datetime_new (int_of_digits (field s 0 4)) (int_of_digits (field s 5 2))
                    (int_of_digits (field s 8 2)) (int_of_digits (field s 11 2))
                    (int_of_digits (field s 14 2)) (int_of_digits (field s 17 2))
  else Raise ValueError.

(** The three groups of a match, as the loop header unpacks them. *)
Definition groups3 (g : list text) : text * text * text :=
  match g with
  | [ts_str; lat_str; lon_str] => (ts_str, lat_str, lon_str)
  | _ => ([], [], [])
  end.

(** The body of the [try] block. *)
Definition parse_record (m : text * text * text) : result GpsRecord :=
  let '(ts_str, lat_str, lon_str) := m in
  dt ← strptime ts_str;
  lat ← float_of_text lat_str;
  lon ← float_of_text lon_str;
  Ok (mkGpsRecord dt lat lon).

(** What the [except] branch prints. *)
Definition log_entry : Type := (text * text * text) * exn.

(** The [for ... in matches] loop, threading [gps_records] and the printed
    lines. *)
Fixpoint parse_loop (matches : list (text * text * text))
    (gps_records : list GpsRecord) (log : list log_entry)
  : list GpsRecord * list log_entry :=
  match matches with
  | [] => (gps_records, log)
  | m :: rest =>
    match parse_record m with
    | Ok rec => parse_loop rest (gps_records ++ [rec]) log
    | Raise e => parse_loop rest gps_records (log ++ [(m, e)])
    end
  end.

(** [list.sort(key=...)]: a stable sort that compares keys with [<]. *)
Fixpoint insert_by {A : Type} (key : A -> Z) (x : A) (l : list A) : list A :=
  match l with
  | [] => [x]
  | y :: l' => if key y <? key x then y :: insert_by key x l' else x :: l
  end.

Fixpoint sort_by {A : Type} (key : A -> Z) (l : list A) : list A :=
  match l with
  | [] => []
  | x :: l' => insert_by key x (sort_by key l')
  end.

Definition matches_of (raw_string : text) : list (text * text * text) :=
  groups3 <$> findall pattern raw_string.

(** [parse_gps_data] together with the lines it prints. *)
Definition parse_gps_data_log (raw_string : text) : list GpsRecord * list log_entry :=
  let '(gps_records, log) := parse_loop (matches_of raw_string) [] [] in
  (sort_by timestamp gps_records, log).

Definition parse_gps_data (raw_string : text) : list GpsRecord :=
  (parse_gps_data_log raw_string).1.

(** ** The associator *)

(** A clip dictionary; [gps_data] is [None] until the key is set. *)
Record Clip : Type := mkClip {
  source_file : string;
  clip_file : string;
  clip_index : nat;
  duration : Q;
  pothole : bool;
  gps_data : option (list GpsRecord)
}.

(** [clip["gps_data"] = clip_gps] *)
Definition set_gps_data (clip : Clip) (clip_gps : list GpsRecord) : Clip :=
  mkClip (source_file clip) (clip_file clip) (clip_index clip) (duration clip)
         (pothole clip) (Some clip_gps).

(** [[rec for rec in gps_records if clip_start <= rec["timestamp"] < clip_end]] *)
Definition records_in (clip_start clip_end : datetime) (gps_records : list GpsRecord)
  : list GpsRecord :=
  filter (fun rec => clip_start <= timestamp rec < clip_end) gps_records.

(** The loop of [associate_gps_with_clips], from position [i] of the
    enumeration on.  Every clip of the list is a dictionary of its own (the
    caller builds a fresh one per clip). *)
Fixpoint associate_from (i : nat) (clips_info : list Clip)
    (gps_records : list GpsRecord) (video_start : datetime) (segment_length : Z)
  : result (list Clip) :=
  match clips_info with
  | [] => Ok []
  | clip :: rest =>
    clip_start ← datetime_add_seconds video_start (Z.of_nat i * segment_length);
    clip_end ← datetime_add_seconds video_start ((Z.of_nat i + 1) * segment_length);
    let clip_gps := records_in clip_start clip_end gps_records in
    rest' ← associate_from (S i) rest gps_records video_start segment_length;
    Ok (set_gps_data clip clip_gps :: rest')
  end.

Definition associate_gps_with_clips (clips_info : list Clip)
    (gps_records : list GpsRecord) (video_start : datetime) (segment_length : Z)
  : result (list Clip) :=
  associate_from 0 clips_info gps_records video_start segment_length.

(** ** Processing one file *)

(** The float literal [0.1]. *)
Definition tenth : Q := 3602879701896397 # 36028797018963968.

(** [abs(duration - segment_length) < 0.1].  Durations are finite floats,
    taken with their exact value; near the threshold the float subtraction
    is exact, and away from it rounding cannot change the comparison. *)
Definition keeps_duration (duration : Q) (segment_length : Z) : bool :=
  if Qlt_le_dec (Qabs (duration - inject_Z segment_length)) tenth then true else false.

(** The loop over [enumerate(clip_files)] that builds [file_clips]. *)
Fixpoint collect_clips (input_file : string) (get_clip_duration : string -> Q)
    (segment_length : Z) (idx : nat) (clip_files : list string) : list Clip :=
  match clip_files with
  | [] => []
  | clip_file :: rest =>
    let duration := get_clip_duration clip_file in
    let tail := collect_clips input_file get_clip_duration segment_length (S idx) rest in
    if keeps_duration duration segment_length
    then mkClip input_file clip_file idx duration false None :: tail
    else tail
  end.

(** [process_single_file], given what the external tools return: the clip
    files of [segment_video_single], the durations of [get_clip_duration],
    the text of [extract_raw_gps_data] and the result of
    [get_video_start_time] ([None] when no tag could be read). *)
Definition process_single_file (input_file : string) (clip_files : list string)
    (get_clip_duration : string -> Q) (raw_gps_data : text)
    (get_video_start_time : option datetime) (segment_length : Z)
  : result (list Clip) :=
  let gps_records := parse_gps_data raw_gps_data in
  let video_start :=
    match get_video_start_time, gps_records with
    | None, rec0 :: _ => Some (timestamp rec0)
    | video_start, _ => video_start
    end in
  match video_start with
  | None => Raise ValueError
  | Some video_start =>
    let file_clips :=
      collect_clips input_file get_clip_duration segment_length 0 clip_files in
    associate_gps_with_clips file_clips gps_records video_start segment_length
  end.

(** ** String methods *)

(** [s.startswith(prefix)] *)
Fixpoint startswith (s prefix : text) : bool :=
  match prefix, s with
  | [], _ => true
  | a :: prefix', c :: s' => is_char a c && startswith s' prefix'
  | _ :: _, [] => false
  end.

(** [s.endswith(suffix)] *)
Definition endswith (s suffix : text) : bool :=
  startswith (reverse s) (reverse suffix).

(** [s.lstrip()], [s.rstrip()] and [s.strip()]: blanks are the characters
    of [\s]. *)
Fixpoint lstrip (s : text) : text :=
  match s with
  | c :: s' => if is_space c then lstrip s' else s
  | [] => []
  end.

Definition rstrip (s : text) : text := reverse (lstrip (reverse s)).

Definition strip (s : text) : text := rstrip (lstrip s).

(** [s.replace(old, new)] for a non-empty [old]: the occurrences are taken
    from left to right and do not overlap ([skip] counts the characters of
    the last occurrence still to be passed over). *)
Fixpoint replace_from (old new : text) (skip : nat) (s : text) : text :=
  match s with
  | [] => []
  | c :: s' =>
    match skip with
    | S k => replace_from old new k s'
    | O =>
      if startswith s old
      then new ++ replace_from old new (pred (length old)) s'
      else c :: replace_from old new 0 s'
    end
  end.

Definition replace (old new s : text) : text := replace_from old new 0 s.

(** [c.lower()] below code point 256: the letters A-Z and the capital
    letters 0xC0..0xDE other than the multiplication sign 0xD7 move up by
    32. *)
Definition lower_char (c : ascii) : ascii :=
  if ((65 <=? code c) && (code c <=? 90))
     || ((192 <=? code c) && (code c <=? 222) && negb (code c =? 215))
  then ascii_of_N (Z.to_N (code c + 32))
  else c.

Definition lower (s : text) : text := lower_char <$> s.

(** ** Paths (posixpath) *)

(** [s.rfind(c)]: the last index of [c], or -1. *)
Fixpoint rfind_from (c : ascii) (s : text) (i : Z) (found : Z) : Z :=
  match s with
  | [] => found
  | x :: s' => rfind_from c s' (i + 1) (if is_char c x then i else found)
  end.

Definition rfind (c : ascii) (s : text) : Z := rfind_from c s 0 (-1).

(** [os.path.basename(p)] *)
Definition basename (p : text) : text := drop (Z.to_nat (rfind "/" p + 1)) p.

(** [os.path.splitext(p)[0]]: the extension starts at the last point of the
    last component, unless only points precede it there. *)
Definition splitext_root (p : text) : text :=
  let sepIndex := rfind "/" p in
  let dotIndex := rfind "." p in
  if sepIndex <? dotIndex
  then
    if forallb (is_char ".")
               (take (Z.to_nat (dotIndex - (sepIndex + 1))) (drop (Z.to_nat (sepIndex + 1)) p))
    then p
    else take (Z.to_nat dotIndex) p
  else p.

(** [os.path.join(a, b)] *)
Definition os_path_join (a b : text) : text :=
  if startswith b (txt "/") then b
  else if negb (nonempty a) || endswith a (txt "/") then a ++ b
  else a ++ txt "/" ++ b.

(** ** A stable sort with a comparison: [list.sort()] on strings *)

(** [a < b] on [str]: lexicographic, by code point. *)
Fixpoint text_ltb (a b : text) : bool :=
  match a, b with
  | _, [] => false
  | [], _ :: _ => true
  | x :: a', y :: b' =>
    (code x <? code y) || ((code x =? code y) && text_ltb a' b')
  end.

Fixpoint insert_with {A : Type} (ltb : A -> A -> bool) (x : A) (l : list A) : list A :=
  match l with
  | [] => [x]
  | y :: l' => if ltb y x then y :: insert_with ltb x l' else x :: l
  end.

Fixpoint sort_with {A : Type} (ltb : A -> A -> bool) (l : list A) : list A :=
  match l with
  | [] => []
  | x :: l' => insert_with ltb x (sort_with ltb l')
  end.

(** ** Gathering the clips of a video *)

(** The second half of [segment_video_single]: from the names
    [os.listdir(output_dir)] returns once ffmpeg has run, the paths of the
    clips of [input_file], sorted. *)
Definition segment_video_single (input_file output_dir : text) (listdir : list text)
  : list text :=
  let base_name := splitext_root (basename input_file) in
  let clips :=
    os_path_join output_dir
      <$> List.filter (fun f => startswith f (base_name ++ txt "_clip_")
                                && endswith f (txt ".mp4")) listdir in
  sort_with text_ltb clips.

(** The decimal numeral of a natural number, and [%03d]. *)
Definition digit_char (d : Z) : ascii := ascii_of_N (Z.to_N (48 + d)).

Fixpoint decimal_fuel (fuel : nat) (n : Z) : text :=
  match fuel with
  | O => []
  | S fuel' =>
    if n <? 10 then [digit_char n]
    else decimal_fuel fuel' (n / 10) ++ [digit_char (n mod 10)]
  end.

Definition decimal (n : Z) : text := decimal_fuel (S (Z.to_nat n)) n.

Definition format_03d (n : Z) : text :=
  replicate (3 - length (decimal n)) "0"%char ++ decimal n.

(** The name ffmpeg's segment muxer gives clip number [n] for the output
    pattern [<base_name>_clip_%03d.mp4]. *)
Definition clip_name (base_name : text) (n : Z) : text :=
  base_name ++ txt "_clip_" ++ format_03d n ++ txt ".mp4".

(** ** The start time of a video *)

(** [[lo-hi]] *)
Definition between (lo hi : ascii) (c : ascii) : bool :=
  (code lo <=? code c) && (code c <=? code hi).

Definition two (p q : ascii -> bool) : regex := Cat (Cls p) (Cls q).

(** The directives of [strptime], as [_strptime.TimeRE] defines them: each
    is an alternation, tried from left to right.
    [%Y]: [\d\d\d\d];  [%m]: [1[0-2]|0[1-9]|[1-9]];
    [%d]: [3[0-1]|[1-2]\d|0[1-9]|[1-9]| [1-9]];  [%H]: [2[0-3]|[0-1]\d|\d];
    [%M]: [[0-5]\d|\d];  [%S]: [6[0-1]|[0-5]\d|\d]. *)
Definition dir_Y : list regex := [digits 4].
Definition dir_m : list regex :=
  [two (is_char "1") (between "0" "2"); two (is_char "0") (between "1" "9");
   Cls (between "1" "9")].
Definition dir_d : list regex :=
  [two (is_char "3") (between "0" "1"); two (between "1" "2") is_digit;
   two (is_char "0") (between "1" "9"); Cls (between "1" "9");
   two (is_char " ") (between "1" "9")].
Definition dir_H : list regex :=
  [two (is_char "2") (between "0" "3"); two (between "0" "1") is_digit; Cls is_digit].
Definition dir_M : list regex := [two (between "0" "5") is_digit; Cls is_digit].
Definition dir_S : list regex :=
  [two (is_char "6") (between "0" "1"); two (between "0" "5") is_digit; Cls is_digit].

(** The regex of the format ["%Y-%m-%d %H:%M:%S"]; the blank of the format
    stands for [\s+]. *)
Definition start_format : list (list regex) :=
  [dir_Y; [lit "-"]; dir_m; [lit "-"]; dir_d; [Rep is_space 1 None];
   dir_H; [lit ":"]; dir_M; [lit ":"]; dir_S].

(** An alternation: the matches of the first alternative, then those of the
    second, and so on. *)
Definition run_alts (alts : list regex) (s : text) : list (list text * text * text) :=
  r ← alts; run r s.

(** A sequence of alternations: the texts its items match and the rest, in
    the order a backtracking matcher finds them. *)
Fixpoint run_format (items : list (list regex)) (s : text) : list (list text * text) :=
  match items with
  | [] => [([], s)]
  | alts :: items' =>
    m ← run_alts alts s;
    k ← run_format items' m.2;
    [(m.1.2 :: k.1, k.2)]
  end.

(** [int(w)] for a group of a directive: digits, after a blank at most. *)
Definition int_of_group (w : text) : Z := int_of_digits (List.filter is_digit w).

(** [datetime.strptime(s, "%Y-%m-%d %H:%M:%S")]: the first match of the
    regex at the start of [s] must reach its end, and the fields must make a
    date-time. *)
Definition strptime_start (s : text) : result datetime :=
  match head (run_format start_format s) with
  | Some ([year; _; month; _; day; _; hour; _; minute; _; second], []) =>
    datetime_new (int_of_group year) (int_of_group month) (int_of_group day)
                 (int_of_group hour) (int_of_group minute) (int_of_group second)
  | _ => Raise ValueError
  end.

(** One turn of the loop of [get_video_start_time]: [output] is what
    [check_output(cmd).decode()] returns for the tag, [None] when it raises.
    [None] as a result stands for going on to the next tag. *)
Definition start_time_of_tag (output : option text) : option datetime :=
  match output with
  | None => None
  | Some out =>
    let output := strip out in
    if nonempty output
    then
      match strptime_start (strip (replace (txt "UTC") [] output)) with
      | Ok dt => Some dt
      | Raise _ => None
      end
    else None
  end.

Fixpoint first_start_time (ffprobe : string -> option text) (tags : list string)
  : option datetime :=
  match tags with
  | [] => None
  | tag :: tags' =>
    match start_time_of_tag (ffprobe tag) with
    | Some dt => Some dt
    | None => first_start_time ffprobe tags'
    end
  end.

(** [get_video_start_time], given what ffprobe prints for each tag. *)
Definition get_video_start_time (ffprobe : string -> option text) : option datetime :=
  first_start_time ffprobe ["encoded_date"; "creation_time"]%string.

(** ** The durations and the raw GPS text *)

(** [get_clip_duration]: [probed] is the value of [float(output)] in the
    [try] block, [None] when the block raises. *)
Definition get_clip_duration (probed : option Q) : Q :=
  match probed with
  | Some duration => duration
  | None => 0
  end.

(** [extract_raw_gps_data]: [exiftool] is the decoded output of the tool,
    [None] when the call raises. *)
Definition extract_raw_gps_data (exiftool : option text) : text :=
  match exiftool with
  | Some output => output
  | None => []
  end.

(** ** Processing a folder *)



(** [file.lower().endswith(".mp4")] *)
Definition is_mp4 (file : text) : bool := endswith (lower file) (txt ".mp4").



(** ** Vocabulary of the statements *)

(** The half-open window [[t0 + i*L, t0 + (i+1)*L)] of index [i]. *)
Definition window_start (video_start : datetime) (segment_length : Z) (i : nat) : Z :=
  video_start + Z.of_nat i * segment_length.

Definition window_end (video_start : datetime) (segment_length : Z) (i : nat) : Z :=
  video_start + (Z.of_nat i + 1) * segment_length.

Definition in_window (video_start : datetime) (segment_length : Z) (i : nat)
    (rec : GpsRecord) : Prop :=
  window_start video_start segment_length i <= timestamp rec
  < window_end video_start segment_length i.

(** Both ends of the first [n] windows are datetimes (years 1..9999). *)
Definition windows_in_range (video_start : datetime) (segment_length : Z) (n : nat) : Prop :=
  forall i, (i < n)%nat ->
    datetime_in_range (window_start video_start segment_length i)
    /\ datetime_in_range (window_end video_start segment_length i).

(** The clip at position [i] of [out] carries [rec] in its [gps_data]. *)
Definition assigned (out : list Clip) (i : nat) (rec : GpsRecord) : Prop :=
  exists c g, out !! i = Some c /\ gps_data c = Some g /\ rec ∈ g.

(** Non-decreasing keys, and non-decreasing timestamps. *)
Definition key_le {A : Type} (key : A -> Z) (a b : A) : Prop := key a <= key b.

Definition by_time (a b : GpsRecord) : Prop := timestamp a <= timestamp b.

(** Two clips agree on every key but [gps_data]. *)
Definition same_but_gps (c c' : Clip) : Prop :=
  source_file c' = source_file c /\ clip_file c' = clip_file c
  /\ clip_index c' = clip_index c /\ duration c' = duration c
  /\ pothole c' = pothole c.

(** The exact value of a finite float. *)
Definition float_value (f : pyfloat) : Q :=
  match f with
  | Finite neg m e => (if neg then -1 else 1) * inject_Z m * Qpower 2 e
  | Infinity _ => 0
  end.

(** Every character of [w] is in the class. *)
Definition all_in (p : ascii -> bool) (w : text) : Prop := Forall (fun c => p c = true) w.

(** [lo <= n <= hi] *)
Definition within (lo : nat) (hi : option nat) (n : nat) : Prop :=
  (lo <= n)%nat /\ forall h, hi = Some h -> (n <= h)%nat.

(** The words of a regex, with the groups they capture. *)
Fixpoint denotes (r : regex) (gs : list text) (w : text) : Prop :=
  match r with
  | Cls p => gs = [] /\ exists c, w = [c] /\ p c = true
  | Rep p lo hi => gs = [] /\ all_in p w /\ within lo hi (length w)
  | Cat r1 r2 =>
    exists g1 w1 g2 w2,
      gs = g1 ++ g2 /\ w = w1 ++ w2 /\ denotes r1 g1 w1 /\ denotes r2 g2 w2
  | Grp r' => exists g, gs = w :: g /\ denotes r' g w
  end.

(** [n] digits. *)
Definition is_digits (n : nat) (w : text) : Prop := all_in is_digit w /\ length w = n.

(** [YYYY:MM:DD HH:MM:SSZ] *)
Definition is_timestamp_text (w : text) : Prop :=
  exists Y m d H M S,
    is_digits 4 Y /\ is_digits 2 m /\ is_digits 2 d
    /\ is_digits 2 H /\ is_digits 2 M /\ is_digits 2 S
    /\ w = Y ++ ":"%char :: m ++ ":"%char :: d ++ " "%char
              :: H ++ ":"%char :: M ++ ":"%char :: S ++ ["Z"%char].

(** At least one digit, a point, at least one digit. *)
Definition is_decimal_text (w : text) : Prop :=
  exists ip fp,
    w = ip ++ "."%char :: fp /\ all_in is_digit ip /\ all_in is_digit fp
    /\ ip <> [] /\ fp <> [].

(** A decimal with an optional leading sign. *)
Definition is_optsigned_text (w : text) : Prop :=
  is_decimal_text w \/ exists c body, w = c :: body /\ is_sign c = true /\ is_decimal_text body.

(** A decimal with a leading sign. *)
Definition is_signed_text (w : text) : Prop :=
  exists c body, w = c :: body /\ is_sign c = true /\ is_decimal_text body.

(** The next character, if any, is outside the class. *)
Definition stops (p : ascii -> bool) (s : text) : Prop :=
  match s with
  | [] => True
  | c :: _ => p c = false
  end.

(** Does a sign occur somewhere after a point?  Every match of [pattern]
    has one (the sign of the longitude after the point of the latitude). *)
Fixpoint sign_after_dot (seen_dot : bool) (s : text) : bool :=
  match s with
  | [] => false
  | c :: s' => (seen_dot && is_sign c) || sign_after_dot (seen_dot || is_char "." c) s'
  end.

(** The record a match yields, if its [try] block succeeds. *)
Definition parsed (m : text * text * text) : option GpsRecord :=
  match parse_record m with
  | Ok rec => Some rec
  | Raise _ => None
  end.

(** The line a match prints, if its [try] block raises. *)
Definition failed (m : text * text * text) : option log_entry :=
  match parse_record m with
  | Ok _ => None
  | Raise e => Some (m, e)
  end.

(** The records in the order the loop appended them, before the sort. *)
Definition encountered (raw_string : text) : list GpsRecord :=
  (parse_loop (matches_of raw_string) [] []).1.

(** The records of the window of a clip's own [clip_index]. *)
Definition records_of_clip_index (video_start : datetime) (segment_length : Z)
    (gps_records : list GpsRecord) (c : Clip) : list GpsRecord :=
  records_in (window_start video_start segment_length (clip_index c))
             (window_end video_start segment_length (clip_index c)) gps_records.

(** The [gps_data] list of a clip ([[]] while the key is missing). *)
Definition gps_of (c : Clip) : list GpsRecord := default [] (gps_data c).

(** A blob made of well-formed records and of filler without digits, each
    record being followed by the end of the blob or by a character that is
    not a digit; with the groups of its records, in order. *)
Inductive well_separated : text -> list (text * text * text) -> Prop :=
| ws_end : well_separated [] []
| ws_filler c s l :
    is_digit c = false -> well_separated s l -> well_separated (c :: s) l
| ws_record ts sp1 lat sp2 lon s l :
    is_timestamp_text ts -> all_in is_space sp1 -> is_optsigned_text lat ->
    all_in is_space sp2 -> is_signed_text lon -> stops is_digit s ->
    well_separated s l ->
    well_separated (ts ++ sp1 ++ lat ++ sp2 ++ lon ++ s) ((ts, lat, lon) :: l).


(** [dt.strftime("%Y-%m-%d %H:%M:%S")], from the fields of [dt]. *)
Definition two_digits (n : Z) : text := [digit_char (n / 10); digit_char (n mod 10)].

Definition four_digits (n : Z) : text :=
  [digit_char (n / 1000); digit_char (n / 100 mod 10);
   digit_char (n / 10 mod 10); digit_char (n mod 10)].

Definition start_text (y m d H M S : Z) : text :=
  four_digits y ++ "-"%char :: two_digits m ++ "-"%char :: two_digits d ++ " "%char
    :: two_digits H ++ ":"%char :: two_digits M ++ ":"%char :: two_digits S.

(** A directive reads the two digits of [n] and nothing else, whatever
    follows them. *)
Definition reads_two_digits (alts : list regex) (n : Z) : Prop :=
  forall rest,
    head (run_alts alts (two_digits n ++ rest)) = Some ([], two_digits n, rest).

(** [a <= b] on [str]. *)
Definition text_le (a b : text) : Prop := text_ltb b a = false.

(** The test [segment_video_single] applies to a name of the output
    directory. *)
Definition is_clip_name (base_name f : text) : bool :=
  startswith f (base_name ++ txt "_clip_") && endswith f (txt ".mp4").

(** The base name [segment_video_single] derives from the input file. *)
Definition base_name_of (input_file : text) : text :=
  splitext_root (basename input_file).

(** ** Sample data *)

Definition sample_start : datetime := 63879058800.

Definition sample_record (secs : Z) : GpsRecord :=
  mkGpsRecord (sample_start + secs)
              (Finite false 5878577414799354 (-47)) (Finite true 6200917463531519 (-46)).

Definition sample_records : list GpsRecord :=
  [sample_record 5; sample_record 10; sample_record 15; sample_record 20].

Definition sample_clip (idx : nat) (file : string) : Clip :=
  mkClip "v.mp4" file idx 10 false None.

Definition sample_clips : list Clip :=
  [sample_clip 0 "v_clip_000.mp4"; sample_clip 1 "v_clip_001.mp4"].

Definition sample_files : list string :=
  ["v_clip_000.mp4"; "v_clip_001.mp4"; "v_clip_002.mp4"]%string.

(** The first clip is half a second too long, the other two last 10 s. *)
Definition sample_durations (clip_file : string) : Q :=
  if String.eqb clip_file "v_clip_000.mp4" then 21 # 2 else 10.

Definition sample_blob : text :=
  txt "2025:03:31 23:00:05Z41.7698047868907-88.120337175205329
2025:03:31 23:00:15Z41.7698047868907-88.120337175205329
2025:03:31 23:00:25Z41.7698047868907-88.120337175205329".

(** A blob whose second match carries month 13. *)
Definition sample_blob_bad_month : text :=
  txt "2025:03:31 23:00:05Z41.7698047868907-88.120337175205329
2025:13:31 23:00:15Z41.7698047868907-88.120337175205329
2025:03:31 23:00:25Z41.7698047868907-88.120337175205329".

Definition sample_out : list Clip :=
  [set_gps_data (sample_clip 0 "v_clip_000.mp4") [sample_record 5];
   set_gps_data (sample_clip 1 "v_clip_001.mp4") [sample_record 10; sample_record 15]].

(** * Properties *)

(** ** The associator *)

Lemma datetime_add_seconds_ok dt secs :
  datetime_in_range (dt + secs) -> datetime_add_seconds dt secs = Ok (dt + secs).
Proof.
  unfold datetime_in_range, datetime_add_seconds. intros [Hlo Hhi].
  apply Z.leb_le in Hlo, Hhi. cbv zeta. by rewrite Hlo, Hhi.
Qed.

Lemma datetime_add_seconds_range dt secs t :
  datetime_add_seconds dt secs = Ok t -> t = dt + secs /\ datetime_in_range t.
Proof.
  unfold datetime_add_seconds, datetime_in_range. cbv zeta.
  destruct (0 <=? dt + secs) eqn:Hlo, (dt + secs <=? MAX_DATETIME) eqn:Hhi;
    simpl; intros [= <-]. apply Z.leb_le in Hlo, Hhi. lia.
Qed.

(** The loop computes, clip by clip, the records of the window of the
    clip's position. *)
Lemma associate_from_imap clips : forall i recs t0 L,
  (forall j, (j < length clips)%nat ->
     datetime_in_range (window_start t0 L (i + j))
     /\ datetime_in_range (window_end t0 L (i + j))) ->
  associate_from i clips recs t0 L
  = Ok (imap (fun j c => set_gps_data c
                (records_in (window_start t0 L (i + j)) (window_end t0 L (i + j)) recs))
             clips).
Proof.
  induction clips as [|c clips IH]; intros i recs t0 L Hr; [done|].
  destruct (Hr 0%nat) as [Hs He]; [simpl; lia|].
  rewrite Nat.add_0_r in Hs, He. unfold window_start in Hs. unfold window_end in He.
  cbn [associate_from]. rewrite (datetime_add_seconds_ok _ _ Hs). cbn [mbind result_bind].
  rewrite (datetime_add_seconds_ok _ _ He). cbn [mbind result_bind].
  rewrite IH.
  - cbn [mbind result_bind imap]. rewrite Nat.add_0_r. do 2 f_equal.
    apply imap_ext. intros j x _. simpl. by rewrite Nat.add_succ_r.
  - intros j Hj. rewrite Nat.add_succ_l, <- Nat.add_succ_r. apply Hr. simpl. lia.
Qed.

Lemma associate_gps_with_clips_imap clips recs t0 L :
  windows_in_range t0 L (length clips) ->
  associate_gps_with_clips clips recs t0 L
  = Ok (imap (fun j c => set_gps_data c
                (records_in (window_start t0 L j) (window_end t0 L j) recs)) clips).
Proof. intros Hr. apply (associate_from_imap clips 0). exact Hr. Qed.

(** Outside the datetime range the loop raises, as [datetime + timedelta]
    does. *)
Lemma associate_gps_with_clips_returns clips recs t0 L out :
  associate_gps_with_clips clips recs t0 L = Ok out ->
  windows_in_range t0 L (length clips).
Proof.
  unfold associate_gps_with_clips, windows_in_range.
  assert (forall k out, associate_from k clips recs t0 L = Ok out ->
          forall i, (i < length clips)%nat ->
            datetime_in_range (window_start t0 L (k + i))
            /\ datetime_in_range (window_end t0 L (k + i))) as H.
  { clear out. induction clips as [|c clips IH]; intros k out Hout i Hi; [simpl in Hi; lia|].
    cbn [associate_from] in Hout.
    destruct (datetime_add_seconds t0 (Z.of_nat k * L)) as [s|] eqn:Hs; [|done].
    cbn [mbind result_bind] in Hout.
    destruct (datetime_add_seconds t0 ((Z.of_nat k + 1) * L)) as [e|] eqn:He; [|done].
    cbn [mbind result_bind] in Hout.
    destruct (associate_from (S k) clips recs t0 L) as [rest|] eqn:Hrest; [|done].
    destruct i as [|i].
    - rewrite Nat.add_0_r. unfold window_start, window_end.
      apply datetime_add_seconds_range in Hs as [-> ?], He as [-> ?]. done.
    - rewrite Nat.add_succ_r, <- Nat.add_succ_l. eapply IH; [done|]. simpl in Hi. lia. }
  intros Hout i Hi. exact (H 0%nat out Hout i Hi).
Qed.

Lemma elem_of_records_in s e recs r :
  r ∈ records_in s e recs <-> s <= timestamp r < e /\ r ∈ recs.
Proof. unfold records_in. by rewrite list_elem_of_filter. Qed.

(** What the clip at position [i] of the result is. *)
Lemma associate_lookup clips recs t0 L i c :
  clips !! i = Some c ->
  imap (fun j c => set_gps_data c
          (records_in (window_start t0 L j) (window_end t0 L j) recs)) clips !! i
  = Some (set_gps_data c (records_in (window_start t0 L i) (window_end t0 L i) recs)).
Proof. intros Hc. by rewrite list_lookup_imap, Hc. Qed.

Lemma assigned_iff clips recs t0 L i r :
  assigned (imap (fun j c => set_gps_data c
              (records_in (window_start t0 L j) (window_end t0 L j) recs)) clips) i r
  <-> (i < length clips)%nat /\ in_window t0 L i r /\ r ∈ recs.
Proof.
  unfold assigned, in_window. split.
  - intros (c & g & Hc & Hg & Hr). rewrite list_lookup_imap in Hc.
    destruct (clips !! i) as [c0|] eqn:Hi; [|done]. simpl in Hc.
    injection Hc as <-. simpl in Hg. injection Hg as <-.
    apply elem_of_records_in in Hr. split; [|done].
    by eapply lookup_lt_Some.
  - intros (Hi & Hw & Hr). apply lookup_lt_is_Some in Hi as [c Hc].
    eexists _, _. rewrite (associate_lookup _ _ _ _ _ _ Hc).
    split; [done|]. split; [done|]. by apply elem_of_records_in.
Qed.

(** Windows of distinct indices are disjoint, whatever the sign of the
    segment length. *)
Lemma in_window_unique t0 L i j r :
  in_window t0 L i r -> in_window t0 L j r -> i = j.
Proof. unfold in_window, window_start, window_end. intros Hi Hj. nia. Qed.


Lemma by_time_trans : Transitive by_time.
Proof. unfold by_time. intros a b c ??. lia. Qed.

Lemma StronglySorted_sublist {A} (R : relation A) (g l : list A) :
  sublist g l -> StronglySorted R l -> StronglySorted R g.
Proof.
  induction 1 as [|x g l Hs IH|x g l Hs IH]; intros Hl; [done| |].
  - apply StronglySorted_cons in Hl as [Hx Hl]. apply StronglySorted_cons. split; [|auto].
    apply Forall_forall. intros y Hy. rewrite Forall_forall in Hx. apply Hx.
    by eapply sublist_subseteq.
  - apply StronglySorted_cons in Hl as [_ Hl]. auto.
Qed.

Lemma Sorted_sublist_by_time (g l : list GpsRecord) :
  sublist g l -> Sorted by_time l -> Sorted by_time g.
Proof.
  intros Hs Hl. apply StronglySorted_Sorted.
  apply (StronglySorted_sublist by_time g l Hs).
  apply Sorted_StronglySorted; [apply by_time_trans|exact Hl].
Qed.

Lemma sample_windows_in_range : windows_in_range sample_start 10 (length sample_clips).
Proof.
  intros i Hi. simpl in Hi.
  unfold datetime_in_range, window_start, window_end, MAX_DATETIME, _MAXORDINAL, sample_start.
  lia.
Qed.

(** C4.  With a positive segment length, a record whose timestamp is the end
    of the window of position [i] is not given to the clip at position [i];
    it is given to the clip at position [i + 1] when there is one and to no
    other clip (so it is dropped when [i + 1] is out of range).  A record
    whose timestamp is the start of a window is given to that window's clip:
    windows are closed on the left and open on the right. *)
Theorem boundary_record_belongs_to_next_window
    (clips : list Clip) (recs : list GpsRecord) (t0 : datetime) (L : Z)
    (i : nat) (r : GpsRecord) :
  0 < L ->
  windows_in_range t0 L (length clips) ->
  (i < length clips)%nat ->
  r ∈ recs ->
  timestamp r = window_end t0 L i ->
  exists out,
    associate_gps_with_clips clips recs t0 L = Ok out
    /\ ~ assigned out i r
    /\ ((S i < length clips)%nat -> assigned out (S i) r)
    /\ (forall j, assigned out j r -> j = S i)
    /\ (forall r', r' ∈ recs -> timestamp r' = window_start t0 L i -> assigned out i r').
Proof.
  intros HL Hr Hi Hin Hts. eexists. split; [by apply associate_gps_with_clips_imap|].
  repeat split.
  - rewrite assigned_iff. unfold in_window. lia.
  - intros HSi. apply assigned_iff. unfold in_window, window_start, window_end in *.
    repeat split; [done|lia|lia|done].
  - intros j Hj. apply assigned_iff in Hj as (_ & Hw & _).
    apply (in_window_unique t0 L j (S i) r Hw).
    unfold in_window, window_start, window_end in *. lia.
  - intros r' Hin' Hts'. apply assigned_iff.
    unfold in_window, window_start, window_end in *. repeat split; [done|lia|lia|done].
Qed.

Lemma boundary_record_belongs_to_next_window_witness :
  exists out,
    associate_gps_with_clips sample_clips sample_records sample_start 10 = Ok out
    /\ ~ assigned out 0 (sample_record 10)
    /\ ((1 < length sample_clips)%nat -> assigned out 1 (sample_record 10))
    /\ (forall j, assigned out j (sample_record 10) -> j = 1%nat)
    /\ (forall r', r' ∈ sample_records ->
          timestamp r' = window_start sample_start 10 0 -> assigned out 0 r').
Proof.
  apply (boundary_record_belongs_to_next_window
           sample_clips sample_records sample_start 10 0 (sample_record 10)).
  - lia.
  - exact sample_windows_in_range.
  - simpl. lia.
  - unfold sample_records. apply list_elem_of_In. simpl. auto.
  - reflexivity.
Defined.

(** C5.  Every record of the input is carried by the clip at position [i]
    exactly when its timestamp lies in window [i]; at most one window
    contains a given timestamp; hence a record inside some window is carried
    by exactly one clip and a record outside all windows by none. *)
Theorem records_are_partitioned_by_windows
    (clips : list Clip) (recs : list GpsRecord) (t0 : datetime) (L : Z) :
  windows_in_range t0 L (length clips) ->
  exists out,
    associate_gps_with_clips clips recs t0 L = Ok out
    /\ forall r, r ∈ recs ->
         (forall i, assigned out i r <-> (i < length clips)%nat /\ in_window t0 L i r)
         /\ (forall i j, in_window t0 L i r -> in_window t0 L j r -> i = j)
         /\ ((exists i, (i < length clips)%nat /\ in_window t0 L i r) ->
             exists! i, assigned out i r)
         /\ (~ (exists i, (i < length clips)%nat /\ in_window t0 L i r) ->
             forall i, ~ assigned out i r).
Proof.
  intros Hr. eexists. split; [by apply associate_gps_with_clips_imap|].
  intros r Hin. split; [|split; [|split]].
  - intros i. rewrite assigned_iff. tauto.
  - intros i j. apply in_window_unique.
  - intros (i & Hi & Hw). exists i. split; [by apply assigned_iff|].
    intros j (_ & Hj & _)%assigned_iff. by eapply in_window_unique.
  - intros Hno i (Hi & Hw & _)%assigned_iff. apply Hno. eauto.
Qed.

Lemma records_are_partitioned_by_windows_witness :
  exists out,
    associate_gps_with_clips sample_clips sample_records sample_start 10 = Ok out
    /\ forall r, r ∈ sample_records ->
         (forall i, assigned out i r
                    <-> (i < length sample_clips)%nat /\ in_window sample_start 10 i r)
         /\ (forall i j, in_window sample_start 10 i r ->
                         in_window sample_start 10 j r -> i = j)
         /\ ((exists i, (i < length sample_clips)%nat /\ in_window sample_start 10 i r) ->
             exists! i, assigned out i r)
         /\ (~ (exists i, (i < length sample_clips)%nat /\ in_window sample_start 10 i r) ->
             forall i, ~ assigned out i r).
Proof.
  apply (records_are_partitioned_by_windows sample_clips sample_records sample_start 10).
  exact sample_windows_in_range.
Defined.

(** C9.  For a sorted input, the [gps_data] of every clip is a subsequence
    of the input records (their relative order is kept) and is itself
    non-decreasing by timestamp. *)
Theorem gps_data_keeps_record_order
    (clips : list Clip) (recs : list GpsRecord) (t0 : datetime) (L : Z) :
  Sorted by_time recs ->
  windows_in_range t0 L (length clips) ->
  exists out,
    associate_gps_with_clips clips recs t0 L = Ok out
    /\ length out = length clips
    /\ forall i c, out !! i = Some c ->
         exists g, gps_data c = Some g /\ sublist g recs /\ Sorted by_time g.
Proof.
  intros Hsorted Hr. eexists. split; [by apply associate_gps_with_clips_imap|].
  split; [apply length_imap|].
  intros i c Hc. rewrite list_lookup_imap in Hc.
  destruct (clips !! i) as [c0|]; [|done]. injection Hc as <-.
  eexists. split; [done|].
  assert (sublist (records_in (window_start t0 L i) (window_end t0 L i) recs) recs) as Hs.
  { unfold records_in. apply sublist_filter. }
  split; [done|]. by eapply Sorted_sublist_by_time.
Qed.

Lemma gps_data_keeps_record_order_witness :
  exists out,
    associate_gps_with_clips sample_clips sample_records sample_start 10 = Ok out
    /\ length out = length sample_clips
    /\ forall i c, out !! i = Some c ->
         exists g, gps_data c = Some g /\ sublist g sample_records /\ Sorted by_time g.
Proof.
  apply (gps_data_keeps_record_order sample_clips sample_records sample_start 10).
  - unfold sample_records, by_time.
    repeat (constructor; simpl; try lia).
  - exact sample_windows_in_range.
Defined.

(** C10.  The associator returns as many clips as it was given, in the same
    order, and each of them differs from the clip it was given at most in
    [gps_data], which is set. *)
Theorem associate_changes_only_gps_data
    (clips : list Clip) (recs : list GpsRecord) (t0 : datetime) (L : Z) :
  windows_in_range t0 L (length clips) ->
  exists out,
    associate_gps_with_clips clips recs t0 L = Ok out
    /\ length out = length clips
    /\ forall i c, clips !! i = Some c ->
         exists c', out !! i = Some c' /\ same_but_gps c c' /\ is_Some (gps_data c').
Proof.
  intros Hr. eexists. split; [by apply associate_gps_with_clips_imap|].
  split; [apply length_imap|].
  intros i c Hc. eexists. split; [by apply associate_lookup|].
  split; [by repeat split|]. simpl. eauto.
Qed.

Lemma associate_changes_only_gps_data_witness :
  exists out,
    associate_gps_with_clips sample_clips sample_records sample_start 10 = Ok out
    /\ length out = length sample_clips
    /\ forall i c, sample_clips !! i = Some c ->
         exists c', out !! i = Some c' /\ same_but_gps c c' /\ is_Some (gps_data c').
Proof.
  apply (associate_changes_only_gps_data sample_clips sample_records sample_start 10).
  exact sample_windows_in_range.
Defined.

(** ** The stable sort *)

Section sort_by.
Context {A : Type} (key : A -> Z).

Lemma insert_by_Permutation x l : insert_by key x l ≡ₚ x :: l.
Proof.
  induction l as [|y l IH]; [done|]. simpl. destruct (key y <? key x); [|done].
  rewrite IH. apply Permutation_swap.
Qed.

Lemma sort_by_Permutation l : sort_by key l ≡ₚ l.
Proof.
  induction l as [|x l IH]; [done|]. simpl.
  by rewrite insert_by_Permutation, IH.
Qed.

Lemma insert_by_HdRel a x l :
  key_le key a x -> HdRel (key_le key) a l ->
  HdRel (key_le key) a (insert_by key x l).
Proof.
  intros Hax Hal. destruct l as [|y l]; simpl; [by constructor|].
  destruct (key y <? key x); constructor; [by inv Hal|done].
Qed.

Lemma insert_by_Sorted x l :
  Sorted (key_le key) l -> Sorted (key_le key) (insert_by key x l).
Proof.
  induction 1 as [|y l Hl IH Hy]; simpl; [by repeat constructor|].
  destruct (key y <? key x) eqn:Hlt.
  - apply Z.ltb_lt in Hlt. constructor; [done|].
    apply insert_by_HdRel; [unfold key_le; lia|done].
  - apply Z.ltb_ge in Hlt. constructor; [by constructor|]. by constructor.
Qed.

Lemma sort_by_Sorted l : Sorted (key_le key) (sort_by key l).
Proof. induction l; simpl; [constructor|by apply insert_by_Sorted]. Qed.

(** Insertion never moves [x] past an element with its own key. *)
Lemma insert_by_filter_key t x l :
  filter (fun a => key a = t) (insert_by key x l)
  = filter (fun a => key a = t) (x :: l).
Proof.
  induction l as [|y l IH]; [done|]. simpl. destruct (key y <? key x) eqn:Hlt; [|done].
  apply Z.ltb_lt in Hlt. rewrite (filter_cons _ y), IH, !filter_cons.
  repeat case_decide; try done; lia.
Qed.

Lemma sort_by_filter_key t l :
  filter (fun a => key a = t) (sort_by key l) = filter (fun a => key a = t) l.
Proof.
  induction l as [|x l IH]; [done|]. simpl.
  by rewrite insert_by_filter_key, !filter_cons, IH.
Qed.
End sort_by.

(** ** The matcher *)

Lemma rep_splits_sound p s : forall lo hi w rest,
  (w, rest) ∈ rep_splits p lo hi s ->
  s = w ++ rest /\ all_in p w /\ within lo hi (length w).
Proof.
  assert (forall lo (s : text) w rest, (w, rest) ∈ stop_here lo s ->
            w = [] /\ rest = s /\ lo = 0%nat) as Hstop.
  { intros [|lo] s0 w rest; simpl; [|by intros ?%elem_of_nil].
    by intros [= -> ->]%list_elem_of_singleton. }
  assert (forall lo hi (s : text) w rest, (w, rest) ∈ stop_here lo s ->
            s = w ++ rest /\ all_in p w /\ within lo hi (length w)) as Hstop'.
  { intros lo hi s0 w rest (-> & -> & ->)%Hstop. repeat split; [constructor|done|].
    simpl. lia. }
  induction s as [|c s IH]; intros lo hi w rest; simpl; [by apply Hstop'|].
  destruct (p c) eqn:Hp; simpl; [|by apply Hstop'].
  destruct (may_take hi) eqn:Hhi; [|by apply Hstop'].
  rewrite elem_of_app. intros [Hin|Hin]; [|by apply Hstop'].
  apply list_elem_of_fmap in Hin as ([w' rest'] & [= -> ->] & Hin).
  apply IH in Hin as (-> & Hall & Hlo & Hh). repeat split.
  - by constructor.
  - simpl. lia.
  - intros h ->. simpl in *. destruct h as [|h]; [done|].
    specialize (Hh h eq_refl). lia.
Qed.

Lemma run_sound r : forall s gs w rest,
  (gs, w, rest) ∈ run r s -> s = w ++ rest /\ denotes r gs w.
Proof.
  induction r as [p|p lo hi|r1 IH1 r2 IH2|r IH]; intros s gs w rest; simpl.
  - destruct s as [|c s]; [by intros ?%elem_of_nil|].
    destruct (p c) eqn:Hp; [|by intros ?%elem_of_nil].
    intros [= -> -> ->]%list_elem_of_singleton. eauto.
  - intros ([w' rest'] & [= -> -> ->] & Hin)%list_elem_of_fmap.
    apply rep_splits_sound in Hin as (-> & ? & ?). done.
  - intros ([[g1 w1] s1] & Hin2 & Hin1)%list_elem_of_bind.
    apply list_elem_of_bind in Hin2 as ([[g2 w2] s2] & Heq & Hin2).
    apply list_elem_of_singleton in Heq as [= -> -> ->].
    apply IH1 in Hin1 as (-> & ?). apply IH2 in Hin2 as (Hs1 & ?).
    simpl in *. subst s1. split; [by rewrite app_assoc|].
    by exists g1, w1, g2, w2.
  - intros ([[g w'] s'] & Heq & Hin)%list_elem_of_bind.
    apply list_elem_of_singleton in Heq as [= -> -> ->].
    apply IH in Hin as (-> & ?). simpl. eauto.
Qed.

Lemma match_at_sound r s gs w rest :
  match_at r s = Some (gs, w, rest) -> s = w ++ rest /\ denotes r gs w.
Proof. unfold match_at. intros Hh. apply run_sound. by apply head_Some_elem_of. Qed.

(** Every entry of [findall] is the group list of a match at some position
    of the text. *)
Lemma findall_from_sound r s : forall skip gs,
  gs ∈ findall_from r skip s ->
  exists pre w post, s = pre ++ w ++ post /\ denotes r gs w.
Proof.
  induction s as [|c s IH]; intros skip gs.
  - destruct skip as [|k]; simpl; [|by intros ?%elem_of_nil].
    destruct (match_at r []) as [[[g w] rest]|] eqn:Hm; [|by intros ?%elem_of_nil].
    intros ->%list_elem_of_singleton. apply match_at_sound in Hm as (? & ?).
    exists [], w, rest. done.
  - destruct skip as [|k]; simpl.
    + destruct (match_at r (c :: s)) as [[[g w] rest]|] eqn:Hm.
      * intros [->|Hin]%elem_of_cons.
        -- apply match_at_sound in Hm as (? & ?). exists [], w, rest. done.
        -- apply IH in Hin as (pre & w' & post & -> & ?). by exists (c :: pre), w', post.
      * intros (pre & w' & post & -> & ?)%IH. by exists (c :: pre), w', post.
    + intros (pre & w' & post & -> & ?)%IH. by exists (c :: pre), w', post.
Qed.

(** *** What the pattern denotes *)

Lemma denotes_lit a gs w : denotes (lit a) gs w <-> gs = [] /\ w = [a].
Proof.
  simpl. unfold is_char. split.
  - intros (-> & c & -> & ->%Ascii.eqb_eq). done.
  - intros (-> & ->). split; [done|]. exists a. by rewrite Ascii.eqb_refl.
Qed.

Lemma denotes_digits n gs w : denotes (digits n) gs w <-> gs = [] /\ is_digits n w.
Proof.
  simpl. unfold within, is_digits. split.
  - intros (-> & ? & ? & Hh). specialize (Hh n eq_refl). split; [done|]. split; [done|lia].
  - intros (-> & ? & <-). split; [done|split; [done|split; [lia|by intros ? [= <-]]]].
Qed.

Lemma denotes_many1 p gs w :
  denotes (Rep p 1 None) gs w <-> gs = [] /\ all_in p w /\ w <> [].
Proof.
  simpl. unfold within. split.
  - intros (-> & ? & Hlen & _). split; [done|split; [done|]].
    destruct w; simpl in *; [lia|done].
  - intros (-> & ? & ?). split; [done|split; [done|split; [|done]]].
    destruct w; simpl; [done|lia].
Qed.

Lemma denotes_many0 p gs w : denotes (Rep p 0 None) gs w <-> gs = [] /\ all_in p w.
Proof.
  simpl. unfold within. split.
  - by intros (-> & ? & _).
  - intros (-> & ?). split; [done|split; [done|split; [lia|done]]].
Qed.

Lemma denotes_timestamp gs w :
  denotes re_timestamp gs w -> gs = [] /\ is_timestamp_text w.
Proof.
  unfold re_timestamp, is_timestamp_text. cbn [cat denotes].
  setoid_rewrite denotes_digits. setoid_rewrite denotes_lit.
  intros (? & Y & ? & ? & -> & -> & [-> HY] & ? & ? & ? & ? & -> & -> & [-> ->]
          & ? & m & ? & ? & -> & -> & [-> Hm] & ? & ? & ? & ? & -> & -> & [-> ->]
          & ? & d & ? & ? & -> & -> & [-> Hd] & ? & ? & ? & ? & -> & -> & [-> ->]
          & ? & H & ? & ? & -> & -> & [-> HH] & ? & ? & ? & ? & -> & -> & [-> ->]
          & ? & M & ? & ? & -> & -> & [-> HM] & ? & ? & ? & ? & -> & -> & [-> ->]
          & ? & S & ? & ? & -> & -> & [-> HS] & -> & ->).
  split; [done|]. by exists Y, m, d, H, M, S.
Qed.

Lemma denotes_decimal gs w :
  denotes re_decimal gs w -> gs = [] /\ is_decimal_text w.
Proof.
  unfold re_decimal, is_decimal_text. cbn [cat].
  change (denotes (Cat ?a ?b) gs w)
    with (exists g1 w1 g2 w2, gs = g1 ++ g2 /\ w = w1 ++ w2
                              /\ denotes a g1 w1 /\ denotes b g2 w2).
  intros (? & ip & ? & ? & -> & -> & (-> & Hip & ?)%denotes_many1 & Hrest).
  cbn [denotes] in Hrest. fold (denotes (lit ".") ) in Hrest.
  destruct Hrest as (? & ? & ? & fp & -> & -> & Hdot & (-> & Hfp & ?)%denotes_many1).
  apply (denotes_lit "."%char) in Hdot as (-> & ->).
  split; [done|]. by exists ip, fp.
Qed.

(** A match of the pattern: its three groups and the text between them. *)
Lemma denotes_pattern gs w :
  denotes pattern gs w ->
  exists ts sp1 lat sp2 lon,
    gs = [ts; lat; lon] /\ w = ts ++ sp1 ++ lat ++ sp2 ++ lon
    /\ is_timestamp_text ts /\ all_in is_space sp1 /\ is_optsigned_text lat
    /\ all_in is_space sp2 /\ is_signed_text lon.
Proof.
  unfold pattern. cbn [cat].
  intros (? & ts & ? & ? & -> & -> & (? & -> & [-> Hts]%denotes_timestamp) & Hrest).
  destruct Hrest as (? & sp1 & ? & ? & -> & -> & (-> & Hsp1)%denotes_many0 & Hrest).
  destruct Hrest as (? & lat & ? & ? & -> & -> & (? & -> & Hlat) & Hrest).
  destruct Hrest as (? & sp2 & ? & lon & -> & -> & (-> & Hsp2)%denotes_many0 & Hlon).
  destruct Hlon as (? & -> & Hlon).
  destruct Hlat as (? & sg & ? & body & -> & -> & (-> & Hsg & Hlen) & [-> Hbody]%denotes_decimal).
  destruct Hlon as (? & ? & ? & lbody & -> & -> & (-> & c & -> & Hc) & [-> Hlbody]%denotes_decimal).
  exists ts, sp1, (sg ++ body), sp2, (c :: lbody).
  split; [done|]. split; [done|]. split; [done|]. split; [done|].
  split; [|split; [done|by exists c, lbody]].
  destruct Hlen as [_ Hh]. specialize (Hh 1%nat eq_refl).
  destruct sg as [|c' [|? ?]]; [by left| |simpl in Hh; lia].
  right. exists c', body. by inv Hsg.
Qed.

(** *** The first match *)

Ltac by_cases_on_char c :=
  destruct c as [[] [] [] [] [] [] [] []]; vm_compute; congruence.

Lemma digit_not_space c : is_digit c = true -> is_space c = false.
Proof. by_cases_on_char c. Qed.

Lemma digit_not_sign c : is_digit c = true -> is_sign c = false.
Proof. by_cases_on_char c. Qed.

Lemma digit_not_dot c : is_digit c = true -> is_char "." c = false.
Proof. by_cases_on_char c. Qed.

Lemma space_not_digit c : is_space c = true -> is_digit c = false.
Proof. by_cases_on_char c. Qed.

Lemma sign_not_digit c : is_sign c = true -> is_digit c = false.
Proof. by_cases_on_char c. Qed.

Lemma sign_not_space c : is_sign c = true -> is_space c = false.
Proof. by_cases_on_char c. Qed.

Create HintDb chars.
#[local] Hint Resolve digit_not_space digit_not_sign digit_not_dot space_not_digit
  sign_not_digit sign_not_space : chars.

(** A greedy repetition takes the whole run when the run ends the text, is
    followed by a character outside the class, or has the maximal length. *)
Lemma rep_splits_first p w : forall lo hi rest,
  all_in p w -> within lo hi (length w) ->
  stops p rest \/ hi = Some (length w) ->
  head (rep_splits p lo hi (w ++ rest)) = Some (w, rest).
Proof.
  induction w as [|c w IH]; intros lo hi rest Hall [Hlo Hhi] Hstop.
  - simpl in Hlo. assert (lo = 0%nat) as -> by lia. simpl.
    destruct rest as [|c rest]; [done|]. simpl.
    destruct Hstop as [Hstop| ->]; simpl in *.
    + by rewrite Hstop.
    + by rewrite andb_false_r.
  - inv Hall. simpl. rewrite H1. simpl.
    assert (may_take hi = true) as ->.
    { destruct hi as [[|h]|]; try done. specialize (Hhi 0%nat eq_refl). simpl in Hhi. lia. }
    assert (head (rep_splits p (pred lo) (pred <$> hi) (w ++ rest)) = Some (w, rest))
      as [l' ->]%head_Some; [|done].
    apply IH; [done| |].
    + split; [simpl in Hlo; lia|]. intros h Hh. destruct hi as [h'|]; [|done].
      injection Hh as <-. specialize (Hhi h' eq_refl). simpl in Hhi. lia.
    + destruct Hstop as [?| ->]; [by left|by right].
Qed.

Lemma match_rep p lo hi w rest :
  all_in p w -> within lo hi (length w) ->
  stops p rest \/ hi = Some (length w) ->
  match_at (Rep p lo hi) (w ++ rest) = Some ([], w, rest).
Proof.
  intros Hall Hw Hstop. unfold match_at. simpl.
  pose proof (rep_splits_first p w lo hi rest Hall Hw Hstop) as Hh.
  by apply head_Some in Hh as [l' ->].
Qed.

Lemma match_cls p c s : p c = true -> match_at (Cls p) (c :: s) = Some ([], [c], s).
Proof. intros Hp. unfold match_at. simpl. by rewrite Hp. Qed.

Lemma match_lit a s : match_at (lit a) (a :: s) = Some ([], [a], s).
Proof. apply match_cls. apply Ascii.eqb_refl. Qed.

Lemma match_cat r1 r2 s g1 w1 s1 g2 w2 s2 g w :
  match_at r1 s = Some (g1, w1, s1) ->
  match_at r2 s1 = Some (g2, w2, s2) ->
  g = g1 ++ g2 -> w = w1 ++ w2 ->
  match_at (Cat r1 r2) s = Some (g, w, s2).
Proof.
  unfold match_at. intros H1 H2 -> ->. simpl.
  destruct (run r1 s) as [|m1 l1]; [done|]. injection H1 as ->.
  rewrite bind_cons. simpl.
  destruct (run r2 s1) as [|m2 l2]; [done|]. injection H2 as ->.
  by rewrite bind_cons.
Qed.

Lemma match_grp r s g w s' :
  match_at r s = Some (g, w, s') -> match_at (Grp r) s = Some (w :: g, w, s').
Proof.
  unfold match_at. intros H. simpl.
  destruct (run r s) as [|m l]; [done|]. injection H as ->.
  by rewrite bind_cons.
Qed.

Lemma match_digits n w rest :
  is_digits n w -> match_at (digits n) (w ++ rest) = Some ([], w, rest).
Proof.
  intros [Hall <-]. apply match_rep; [done| |by right].
  split; [done|]. by intros ? [= <-].
Qed.

Lemma match_many1 p w rest :
  all_in p w -> w <> [] -> stops p rest ->
  match_at (Rep p 1 None) (w ++ rest) = Some ([], w, rest).
Proof.
  intros Hall Hne Hstop. apply match_rep; [done| |by left].
  split; [|done]. destruct w; simpl; [done|lia].
Qed.

Lemma match_many0 p w rest :
  all_in p w -> stops p rest ->
  match_at (Rep p 0 None) (w ++ rest) = Some ([], w, rest).
Proof.
  intros Hall Hstop. apply match_rep; [done| |by left]. split; [lia|done].
Qed.

Lemma match_timestamp ts rest :
  is_timestamp_text ts -> match_at re_timestamp (ts ++ rest) = Some ([], ts, rest).
Proof.
  intros (Y & m & d & H & M & S & HY & Hm & Hd & HH & HM & HS & ->).
  unfold re_timestamp. cbn [cat].
  repeat (rewrite <- ?app_assoc; rewrite <- ?app_comm_cons).
  repeat (eapply match_cat;
          [first [by apply match_digits | apply match_lit]| |reflexivity|reflexivity]).
  apply match_lit.
Qed.

Lemma match_decimal w rest :
  is_decimal_text w -> stops is_digit rest ->
  match_at re_decimal (w ++ rest) = Some ([], w, rest).
Proof.
  intros (ip & fp & -> & Hip & Hfp & ? & ?) Hstop.
  unfold re_decimal. cbn [cat]. rewrite <- app_assoc, <- app_comm_cons.
  eapply match_cat; [by apply match_many1| |reflexivity|reflexivity].
  eapply match_cat; [apply match_lit|by apply match_many1|reflexivity|reflexivity].
Qed.

Lemma stops_app_cons p (sp : text) c rest :
  (forall a, is_space a = true -> p a = false) -> p c = false -> all_in is_space sp ->
  stops p (sp ++ c :: rest).
Proof. intros Hsp Hc Hall. destruct sp as [|a sp]; simpl; [done|]. inv Hall. auto. Qed.

Lemma decimal_starts_with_digit w :
  is_decimal_text w -> exists d w', w = d :: w' /\ is_digit d = true.
Proof.
  intros (ip & fp & -> & Hip & _ & Hne & _). destruct ip as [|d ip]; [done|].
  inv Hip. by exists d, (ip ++ "."%char :: fp).
Qed.

Lemma match_optsigned w rest :
  is_optsigned_text w -> stops is_digit rest ->
  match_at (Grp (Cat (Rep is_sign 0 (Some 1%nat)) re_decimal)) (w ++ rest)
  = Some ([w], w, rest).
Proof.
  intros [Hdec|(c & body & -> & Hc & Hdec)] Hstop; apply match_grp.
  - assert (match_at (Rep is_sign 0 (Some 1%nat)) (w ++ rest) = Some ([], [], w ++ rest)) as Hs.
    { apply (match_rep is_sign 0 (Some 1%nat) [] (w ++ rest)); [constructor| |left].
      + split; [done|]. intros ? [= <-]. simpl. lia.
      + destruct (decimal_starts_with_digit w Hdec) as (d & w' & -> & Hd). simpl.
        by apply digit_not_sign. }
    by eapply match_cat; [exact Hs|by apply match_decimal|reflexivity|reflexivity].
  - assert (match_at (Rep is_sign 0 (Some 1%nat)) ((c :: body) ++ rest)
            = Some ([], [c], body ++ rest)) as Hs.
    { apply (match_rep is_sign 0 (Some 1%nat) [c] (body ++ rest));
        [by repeat constructor| |by right].
      split; [simpl; lia|]. by intros ? [= <-]. }
    by eapply match_cat; [exact Hs|by apply match_decimal|reflexivity|reflexivity].
Qed.

Lemma match_signed w rest :
  is_signed_text w -> stops is_digit rest ->
  match_at (Grp (Cat (Cls is_sign) re_decimal)) (w ++ rest) = Some ([w], w, rest).
Proof.
  intros (c & body & -> & Hc & Hdec) Hstop. apply match_grp.
  eapply match_cat; [by apply match_cls|by apply match_decimal|reflexivity|reflexivity].
Qed.

Lemma optsigned_starts_unlike_space w rest :
  is_optsigned_text w -> stops is_space (w ++ rest).
Proof.
  intros [Hdec|(c & body & -> & Hc & _)].
  - destruct (decimal_starts_with_digit w Hdec) as (d & w' & -> & Hd). simpl.
    by apply digit_not_space.
  - simpl. by apply sign_not_space.
Qed.

(** The pattern matches a well-formed substring whole, with its three parts
    as groups, provided no digit follows it. *)
Lemma match_pattern ts sp1 lat sp2 lon post :
  is_timestamp_text ts -> all_in is_space sp1 -> is_optsigned_text lat ->
  all_in is_space sp2 -> is_signed_text lon -> stops is_digit post ->
  match_at pattern (ts ++ sp1 ++ lat ++ sp2 ++ lon ++ post)
  = Some ([ts; lat; lon], ts ++ sp1 ++ lat ++ sp2 ++ lon, post).
Proof.
  intros Hts Hsp1 Hlat Hsp2 Hlon Hpost. unfold pattern. cbn [cat].
  pose proof Hlon as (c & body & -> & Hc & Hbody).
  eapply match_cat; [by apply match_grp, match_timestamp| |reflexivity|reflexivity].
  eapply match_cat; [apply match_many0; [done|]| |reflexivity|reflexivity].
  { by apply optsigned_starts_unlike_space. }
  eapply match_cat; [apply match_optsigned; [done|]| |reflexivity|reflexivity].
  { rewrite <- app_comm_cons. apply stops_app_cons; auto with chars. }
  eapply match_cat; [apply match_many0; [done|]| |reflexivity|reflexivity].
  { simpl. auto with chars. }
  by apply match_signed.
Qed.

Lemma findall_from_skip r w : forall post,
  findall_from r (length w) (w ++ post) = findall_from r 0 post.
Proof. induction w as [|c w IH]; intros post; simpl; [done|apply IH]. Qed.

Lemma findall_match r w gs post :
  w <> [] -> match_at r (w ++ post) = Some (gs, w, post) ->
  findall r (w ++ post) = gs :: findall r post.
Proof.
  intros Hne Hm. unfold findall. destruct w as [|c w]; [done|].
  rewrite <- app_comm_cons in *. cbn [findall_from]. rewrite Hm. simpl.
  by rewrite findall_from_skip.
Qed.

Lemma timestamp_text_length ts : is_timestamp_text ts -> length ts = 20%nat.
Proof.
  intros (Y & m & d & H & M & S & [_ HY] & [_ Hm] & [_ Hd] & [_ HH] & [_ HM] & [_ HS] & ->).
  repeat (rewrite ?length_app; simpl). lia.
Qed.

Lemma findall_pattern ts sp1 lat sp2 lon post :
  is_timestamp_text ts -> all_in is_space sp1 -> is_optsigned_text lat ->
  all_in is_space sp2 -> is_signed_text lon -> stops is_digit post ->
  findall pattern (ts ++ sp1 ++ lat ++ sp2 ++ lon ++ post)
  = [ts; lat; lon] :: findall pattern post.
Proof.
  intros Hts Hsp1 Hlat Hsp2 Hlon Hpost.
  pose proof (match_pattern ts sp1 lat sp2 lon post Hts Hsp1 Hlat Hsp2 Hlon Hpost) as Hm.
  pose proof (findall_match pattern (ts ++ sp1 ++ lat ++ sp2 ++ lon) [ts; lat; lon] post) as Hf.
  rewrite <- !app_assoc in Hf. apply Hf; [|done].
  apply timestamp_text_length in Hts. by destruct ts.
Qed.

(** *** Floats of the captured numerals *)

Lemma forallb_all_in p w : all_in p w -> forallb p w = true.
Proof. induction 1 as [|c w Hc _ IH]; simpl; [done|]. by rewrite Hc, IH. Qed.

Lemma split_at_dot_digits ip fp :
  all_in is_digit ip -> split_at_dot (ip ++ "."%char :: fp) = Some (ip, fp).
Proof.
  induction 1 as [|c ip Hc _ IH]; [by rewrite app_nil_l|].
  rewrite <- app_comm_cons. cbn [split_at_dot].
  by rewrite (digit_not_dot c Hc), IH.
Qed.

Lemma float_of_decimal_body neg w :
  is_decimal_text w ->
  exists n d,
    match split_at_dot w with
    | Some (ip, fp) =>
      if nonempty ip && forallb is_digit ip && nonempty fp && forallb is_digit fp
      then Ok (round_binary64 neg (int_of_digits (ip ++ fp)) (10 ^ Z.of_nat (length fp)))
      else Raise ValueError
    | None => Raise ValueError
    end = Ok (round_binary64 neg n d).
Proof.
  intros (ip & fp & -> & Hip & Hfp & Hne1 & Hne2).
  rewrite (split_at_dot_digits ip fp Hip), !forallb_all_in by done.
  destruct ip; [done|]. destruct fp; [done|]. simpl. eauto.
Qed.

Lemma float_of_text_optsigned w :
  is_optsigned_text w -> exists f, float_of_text w = Ok f.
Proof.
  intros [Hdec|(c & body & -> & Hc & Hdec)]; unfold float_of_text.
  - destruct (decimal_starts_with_digit w Hdec) as (d & w' & -> & Hd).
    rewrite (digit_not_sign d Hd).
    destruct (float_of_decimal_body false _ Hdec) as (n & k & ->). eauto.
  - rewrite Hc. destruct (float_of_decimal_body (code c =? 45) _ Hdec) as (n & k & ->). eauto.
Qed.

Lemma signed_is_optsigned w : is_signed_text w -> is_optsigned_text w.
Proof. intros ?. by right. Qed.

Lemma matches_of_sound raw m :
  m ∈ matches_of raw ->
  is_timestamp_text m.1.1 /\ is_optsigned_text m.1.2 /\ is_signed_text m.2
  /\ exists pre sp1 sp2 post,
       all_in is_space sp1 /\ all_in is_space sp2
       /\ raw = pre ++ (m.1.1 ++ sp1 ++ m.1.2 ++ sp2 ++ m.2) ++ post.
Proof.
  unfold matches_of, findall. intros (gs & -> & Hin)%list_elem_of_fmap.
  apply findall_from_sound in Hin as (pre & w & post & -> & Hd).
  apply denotes_pattern in Hd as (ts & sp1 & lat & sp2 & lon & -> & -> & ? & ? & ? & ? & ?).
  simpl. split; [done|split; [done|split; [done|]]].
  by exists pre, sp1, sp2, post.
Qed.

Lemma parse_record_floats_ok raw m :
  m ∈ matches_of raw ->
  exists lat lon,
    float_of_text m.1.2 = Ok lat /\ float_of_text m.2 = Ok lon
    /\ parse_record m = (dt ← strptime m.1.1; Ok (mkGpsRecord dt lat lon)).
Proof.
  intros (_ & Hlat & Hlon%signed_is_optsigned & _)%matches_of_sound.
  destruct m as [[ts lat_str] lon_str]. simpl in *.
  destruct (float_of_text_optsigned _ Hlat) as [lat Hlat'].
  destruct (float_of_text_optsigned _ Hlon) as [lon Hlon'].
  exists lat, lon. split; [done|split; [done|]].
  unfold parse_record. rewrite Hlat', Hlon'. by destruct (strptime ts).
Qed.

(** *** Texts with an unsigned longitude *)

Lemma space_not_sign c : is_space c = true -> is_sign c = false.
Proof. by_cases_on_char c. Qed.

Lemma space_not_dot c : is_space c = true -> is_char "." c = false.
Proof. by_cases_on_char c. Qed.

Lemma sign_not_dot c : is_sign c = true -> is_char "." c = false.
Proof. by_cases_on_char c. Qed.

#[local] Hint Resolve space_not_sign space_not_dot sign_not_dot : chars.

Lemma sign_after_dot_no_sign (t : text) : forall b,
  Forall (fun c => is_sign c = false) t -> sign_after_dot b t = false.
Proof.
  induction t as [|c t IH]; intros b Hall; [done|]. inv Hall. simpl.
  rewrite H1, andb_false_r. simpl. auto.
Qed.

Lemma sign_after_dot_no_dot (a t : text) :
  Forall (fun c => is_char "." c = false) a ->
  Forall (fun c => is_sign c = false) t ->
  forall opt_sign, sign_after_dot false (a ++ opt_sign ++ t)
                   = sign_after_dot false (opt_sign ++ t).
Proof.
  intros Ha Ht opt_sign. induction Ha as [|c a Hc _ IH]; [done|].
  rewrite <- app_comm_cons. cbn [sign_after_dot]. by rewrite Hc.
Qed.

Lemma sign_after_dot_found (a b c' : text) c :
  is_sign c = true -> forall seen, sign_after_dot seen (a ++ "."%char :: b ++ c :: c') = true.
Proof.
  intros Hc.
  assert (forall b0 : text, sign_after_dot true (b0 ++ c :: c') = true) as Hb.
  { induction b0 as [|x b0 IH]; simpl; [by rewrite Hc|]. rewrite IH. apply orb_true_r. }
  induction a as [|x a IH]; intros seen.
  - simpl. rewrite orb_true_r, Hb. apply orb_true_r.
  - rewrite <- app_comm_cons. cbn [sign_after_dot]. rewrite IH. apply orb_true_r.
Qed.

Lemma all_in_weaken (p q : ascii -> bool) (w : text) :
  (forall c, p c = true -> q c = false) -> all_in p w -> Forall (fun c => q c = false) w.
Proof. intros Hpq Hall. eapply Forall_impl; [exact Hall|]. auto. Qed.

Lemma timestamp_text_plain ts :
  is_timestamp_text ts ->
  Forall (fun c => is_char "." c = false) ts.
Proof.
  intros (Y & m & d & H & M & S & [HY _] & [Hm _] & [Hd _] & [HH _] & [HM _] & [HS _] & ->).
  repeat (first [apply Forall_app; split | apply Forall_cons; split
                | apply List.Forall_nil | by eapply all_in_weaken; [apply digit_not_dot|]
                | reflexivity]).
Qed.

Lemma decimal_text_no_sign w :
  is_decimal_text w -> Forall (fun c => is_sign c = false) w.
Proof.
  intros (ip & fp & -> & Hip & Hfp & _ & _).
  apply Forall_app. split; [by eapply all_in_weaken; [apply digit_not_sign|]|].
  apply Forall_cons. split; [reflexivity|].
  by eapply all_in_weaken; [apply digit_not_sign|].
Qed.

(** The text of a match contains a sign after a point. *)
Lemma denotes_pattern_sign_after_dot gs w pre post :
  denotes pattern gs w -> sign_after_dot false (pre ++ w ++ post) = true.
Proof.
  intros (ts & sp1 & lat & sp2 & lon & _ & -> & _ & _ & Hlat & _ & Hlon)%denotes_pattern.
  destruct Hlon as (c & lbody & -> & Hc & _).
  assert (exists x fp, lat = x ++ "."%char :: fp) as (x & fp & ->).
  { destruct Hlat as [(ip & fp & -> & _)|(c0 & body & -> & _ & ip & fp & -> & _)].
    - by exists ip, fp.
    - by exists (c0 :: ip), fp. }
  replace (pre ++ (ts ++ sp1 ++ (x ++ "."%char :: fp) ++ sp2 ++ c :: lbody) ++ post)
    with ((pre ++ ts ++ sp1 ++ x) ++ "."%char :: (fp ++ sp2) ++ c :: (lbody ++ post)).
  - by apply sign_after_dot_found.
  - repeat (rewrite <- ?app_assoc; rewrite <- ?app_comm_cons). reflexivity.
Qed.

(** A timestamp followed by two decimals of which the second has no sign
    contains no match at all. *)
Lemma findall_unsigned_longitude ts sp1 lat sp2 ulon :
  is_timestamp_text ts -> all_in is_space sp1 -> is_optsigned_text lat ->
  all_in is_space sp2 -> is_decimal_text ulon ->
  findall pattern (ts ++ sp1 ++ lat ++ sp2 ++ ulon) = [].
Proof.
  intros Hts Hsp1 Hlat Hsp2 Hulon. apply elem_of_nil_inv. intros gs Hin.
  apply findall_from_sound in Hin as (pre & w & post & Heq & Hd).
  pose proof (denotes_pattern_sign_after_dot gs w pre post Hd) as Htrue.
  rewrite <- Heq in Htrue. clear Heq Hd.
  assert (Forall (fun c => is_char "." c = false) (ts ++ sp1)) as Hnodot.
  { apply Forall_app. split; [by apply timestamp_text_plain|].
    eapply all_in_weaken; [apply space_not_dot|done]. }
  assert (forall body, is_decimal_text body ->
            Forall (fun c => is_sign c = false) (body ++ sp2 ++ ulon)) as Hnosign.
  { intros body Hbody. apply Forall_app. split; [by apply decimal_text_no_sign|].
    apply Forall_app. split; [|by apply decimal_text_no_sign].
    eapply all_in_weaken; [apply space_not_sign|done]. }
  destruct Hlat as [Hdec|(c & body & -> & Hc & Hdec)].
  - rewrite (app_assoc ts sp1) in Htrue.
    pose proof (sign_after_dot_no_dot _ _ Hnodot (Hnosign lat Hdec) []) as Hx.
    rewrite !app_nil_l in Hx. rewrite Hx, sign_after_dot_no_sign in Htrue by auto. done.
  - rewrite (app_assoc ts sp1) in Htrue.
    change ((c :: body) ++ sp2 ++ ulon) with ([c] ++ body ++ sp2 ++ ulon) in Htrue.
    rewrite (sign_after_dot_no_dot _ _ Hnodot (Hnosign body Hdec) [c]) in Htrue.
    cbn [app sign_after_dot] in Htrue.
    rewrite (sign_not_dot c Hc), sign_after_dot_no_sign in Htrue by auto. done.
Qed.

(** C2, as the code has it.  Every match consists of a timestamp text,
    optional blanks, a latitude with an optional sign, optional blanks and a
    longitude with a sign, and is a substring of the blob in that shape.
    Conversely a blob that consists of one such substring is matched whole,
    its two numerals convert to floats, and it yields one record as soon as
    its timestamp text is a date-time.  A blob of the same shape whose
    longitude has no sign yields no record. *)
Theorem pattern_requires_signed_longitude (raw ts sp1 lat sp2 lon ulon : text) :
  (forall m, m ∈ matches_of raw ->
     is_timestamp_text m.1.1 /\ is_optsigned_text m.1.2 /\ is_signed_text m.2
     /\ exists pre s1 s2 post,
          all_in is_space s1 /\ all_in is_space s2
          /\ raw = pre ++ (m.1.1 ++ s1 ++ m.1.2 ++ s2 ++ m.2) ++ post)
  /\ (is_timestamp_text ts -> all_in is_space sp1 -> is_optsigned_text lat ->
      all_in is_space sp2 -> is_signed_text lon ->
      matches_of (ts ++ sp1 ++ lat ++ sp2 ++ lon) = [(ts, lat, lon)]
      /\ exists lat_f lon_f,
           float_of_text lat = Ok lat_f /\ float_of_text lon = Ok lon_f
           /\ forall dt, strptime ts = Ok dt ->
                parse_gps_data (ts ++ sp1 ++ lat ++ sp2 ++ lon)
                = [mkGpsRecord dt lat_f lon_f])
  /\ (is_timestamp_text ts -> all_in is_space sp1 -> is_optsigned_text lat ->
      all_in is_space sp2 -> is_decimal_text ulon ->
      matches_of (ts ++ sp1 ++ lat ++ sp2 ++ ulon) = []
      /\ parse_gps_data (ts ++ sp1 ++ lat ++ sp2 ++ ulon) = []).
Proof.
  split; [intros m; apply matches_of_sound|]. split.
  - intros Hts Hsp1 Hlat Hsp2 Hlon.
    assert (matches_of (ts ++ sp1 ++ lat ++ sp2 ++ lon) = [(ts, lat, lon)]) as Hm.
    { unfold matches_of.
      pose proof (findall_pattern ts sp1 lat sp2 lon [] Hts Hsp1 Hlat Hsp2 Hlon I) as Hf.
      rewrite app_nil_r in Hf. rewrite Hf. reflexivity. }
    split; [done|].
    destruct (float_of_text_optsigned _ Hlat) as [lat_f Hlat'].
    destruct (float_of_text_optsigned _ (signed_is_optsigned _ Hlon)) as [lon_f Hlon'].
    exists lat_f, lon_f. split; [done|split; [done|]]. intros dt Hdt.
    unfold parse_gps_data, parse_gps_data_log. rewrite Hm. simpl.
    by rewrite Hdt, Hlat', Hlon'.
  - intros Hts Hsp1 Hlat Hsp2 Hulon.
    assert (matches_of (ts ++ sp1 ++ lat ++ sp2 ++ ulon) = []) as Hm.
    { unfold matches_of. by rewrite findall_unsigned_longitude. }
    split; [done|]. unfold parse_gps_data, parse_gps_data_log. by rewrite Hm.
Qed.

Lemma canonical_parts :
  is_timestamp_text (txt "2025:03:31 23:00:35Z")
  /\ is_decimal_text (txt "41.7698047868907")
  /\ is_decimal_text (txt "88.120337175205329").
Proof.
  split; [|split].
  - exists (txt "2025"), (txt "03"), (txt "31"), (txt "23"), (txt "00"), (txt "35").
    repeat split; repeat constructor.
  - exists (txt "41"), (txt "7698047868907"). repeat split; try done; repeat constructor.
  - exists (txt "88"), (txt "120337175205329"). repeat split; try done; repeat constructor.
Qed.

Lemma pattern_requires_signed_longitude_witness :
  (txt "2025:03:31 23:00:35Z", txt "41.7698047868907", txt "-88.120337175205329")
    ∈ matches_of canonical
  /\ is_signed_text (txt "-88.120337175205329")
  /\ matches_of (txt "2025:03:31 23:00:35Z" ++ [] ++ txt "41.7698047868907" ++ []
                 ++ txt "-88.120337175205329")
     = [(txt "2025:03:31 23:00:35Z", txt "41.7698047868907", txt "-88.120337175205329")]
  /\ parse_gps_data (txt "2025:03:31 23:00:35Z" ++ [] ++ txt "41.7698047868907" ++ []
                     ++ txt "88.120337175205329") = [].
Proof.
  destruct canonical_parts as (Hts & Hlat & Hlon).
  assert (is_signed_text (txt "-88.120337175205329")) as Hlon'.
  { exists "-"%char, (txt "88.120337175205329"). done. }
  pose proof (pattern_requires_signed_longitude canonical
                (txt "2025:03:31 23:00:35Z") [] (txt "41.7698047868907") []
                (txt "-88.120337175205329") (txt "88.120337175205329"))
    as (Hsound & Hcomplete & Hunsigned).
  assert ((txt "2025:03:31 23:00:35Z", txt "41.7698047868907", txt "-88.120337175205329")
            ∈ matches_of canonical) as Hin.
  { apply list_elem_of_In. vm_compute. auto. }
  split; [exact Hin|]. split; [exact (proj1 (proj2 (proj2 (Hsound _ Hin))))|]. split.
  - exact (proj1 (Hcomplete Hts (List.Forall_nil _) (or_introl Hlat)
                            (List.Forall_nil _) Hlon')).
  - exact (proj2 (Hunsigned Hts (List.Forall_nil _) (or_introl Hlat)
                            (List.Forall_nil _) Hlon)).
Defined.

(** C2 as stated fails: a timestamp followed by two unsigned decimals, with
    or without a blank between them, is of the stated form and yields no
    record. *)
Lemma unsigned_longitude_is_not_matched :
  is_timestamp_text (txt "2025:03:31 23:00:35Z")
  /\ is_decimal_text (txt "41.7698047868907")
  /\ is_decimal_text (txt "88.120337175205329")
  /\ parse_gps_data (txt "2025:03:31 23:00:35Z" ++ txt "41.7698047868907"
                     ++ txt "88.120337175205329") = []
  /\ parse_gps_data (txt "2025:03:31 23:00:35Z" ++ txt "41.7698047868907"
                     ++ txt " " ++ txt "88.120337175205329") = [].
Proof.
  destruct canonical_parts as (Hts & Hlat & Hlon).
  repeat split; try assumption; vm_compute; reflexivity.
Qed.


(** ** The parsing loop *)

Lemma parse_loop_omap ms : forall recs log,
  parse_loop ms recs log = (recs ++ omap parsed ms, log ++ omap failed ms).
Proof.
  induction ms as [|m ms IH]; intros recs log; simpl.
  - by rewrite !app_nil_r.
  - unfold parsed, failed. destruct (parse_record m) as [rec|e]; rewrite IH.
    + by rewrite <- app_assoc.
    + by rewrite <- app_assoc.
Qed.

Lemma parse_gps_data_log_eq raw :
  parse_gps_data_log raw
  = (sort_by timestamp (omap parsed (matches_of raw)), omap failed (matches_of raw)).
Proof. unfold parse_gps_data_log. by rewrite parse_loop_omap. Qed.

Lemma encountered_eq raw : encountered raw = omap parsed (matches_of raw).
Proof. unfold encountered. by rewrite parse_loop_omap. Qed.

Lemma parse_gps_data_eq raw : parse_gps_data raw = sort_by timestamp (encountered raw).
Proof. unfold parse_gps_data. by rewrite parse_gps_data_log_eq, encountered_eq. Qed.

(** C6.  The output of the parser is non-decreasing by timestamp, holds the
    records of the matches (a permutation of them), and the records of any
    one timestamp come in the order their matches were met in the blob. *)
Theorem parse_gps_data_sorted_stable (raw : text) :
  Sorted by_time (parse_gps_data raw)
  /\ parse_gps_data raw ≡ₚ encountered raw
  /\ forall t, filter (fun rec => timestamp rec = t) (parse_gps_data raw)
               = filter (fun rec => timestamp rec = t) (encountered raw).
Proof.
  rewrite parse_gps_data_eq. split; [|split].
  - apply (sort_by_Sorted timestamp).
  - apply sort_by_Permutation.
  - intros t. apply sort_by_filter_key.
Qed.

(** C7.  Every match is handled on its own: the records returned are those
    of the matches whose [try] block succeeds, the lines printed are those of
    the matches whose block raises, and each match is in one of the two.  The
    coordinates of a match always convert, so a match is dropped for its
    date-time only.  The parser itself returns a list whatever the blob. *)
Theorem malformed_match_is_dropped_alone (raw : text) :
  parse_gps_data_log raw
  = (sort_by timestamp (omap parsed (matches_of raw)), omap failed (matches_of raw))
  /\ forall m, m ∈ matches_of raw ->
       ((exists rec, parse_record m = Ok rec /\ rec ∈ parse_gps_data raw)
        \/ (exists e, parse_record m = Raise e /\ strptime m.1.1 = Raise e
                      /\ (m, e) ∈ (parse_gps_data_log raw).2)).
Proof.
  split; [apply parse_gps_data_log_eq|]. intros m Hm.
  unfold parse_gps_data. rewrite parse_gps_data_log_eq. simpl.
  destruct (parse_record m) as [rec|e] eqn:Hp.
  - left. exists rec. split; [done|]. rewrite sort_by_Permutation.
    apply list_elem_of_omap. exists m. split; [done|]. unfold parsed. by rewrite Hp.
  - right. exists e. split; [done|]. split.
    + destruct (parse_record_floats_ok raw m Hm) as (lat & lon & _ & _ & Heq).
      rewrite Heq in Hp. clear Heq.
      destruct (strptime m.1.1); cbn [mbind result_bind] in Hp; [done|].
      by injection Hp as ->.
    + apply list_elem_of_omap. exists m. split; [done|]. unfold failed. by rewrite Hp.
Qed.

Lemma malformed_match_is_dropped_alone_witness :
  let m := (txt "2025:13:31 23:00:15Z", txt "41.7698047868907",
            txt "-88.120337175205329") in
  m ∈ matches_of sample_blob_bad_month
  /\ ((exists rec, parse_record m = Ok rec /\ rec ∈ parse_gps_data sample_blob_bad_month)
      \/ (exists e, parse_record m = Raise e /\ strptime m.1.1 = Raise e
                    /\ (m, e) ∈ (parse_gps_data_log sample_blob_bad_month).2)).
Proof.
  intros m.
  assert (m ∈ matches_of sample_blob_bad_month) as Hm.
  { apply list_elem_of_In. vm_compute. auto. }
  split; [exact Hm|].
  exact (proj2 (malformed_match_is_dropped_alone sample_blob_bad_month) m Hm).
Defined.

(** On the sample blob the match with month 13 is printed and the two others
    are returned. *)
Example bad_month_is_dropped :
  parse_gps_data_log sample_blob_bad_month
  = ([sample_record 5; sample_record 25],
     [((txt "2025:13:31 23:00:15Z", txt "41.7698047868907", txt "-88.120337175205329"),
       ValueError)]).
Proof. vm_compute. reflexivity. Qed.

(** C8.  The canonical example yields exactly one record; its timestamp is
    2025-03-31T23:00:35, its latitude and longitude are the floats nearest to
    41.7698047868907 and -88.120337175205329 (0x1.4e288f697fffap+5 and
    -0x1.607b39ab1ffffp+6), each within half a unit in the last place of the
    decimal. *)
Theorem canonical_example_yields_one_record :
  exists rec,
    parse_gps_data canonical = [rec]
    /\ datetime_new 2025 3 31 23 0 35 = Ok (timestamp rec)
    /\ datetime_fields (timestamp rec) = (2025, 3, 31, 23, 0, 35)
    /\ latitude rec = round_binary64 false 417698047868907 (10 ^ 13)
    /\ latitude rec = Finite false 5878577414799354 (-47)
    /\ (Qabs (float_value (latitude rec) - (417698047868907 # 10000000000000))
        <= 1 # 281474976710656)%Q
    /\ longitude rec = round_binary64 true 88120337175205329 (10 ^ 15)
    /\ longitude rec = Finite true 6200917463531519 (-46)
    /\ (Qabs (float_value (longitude rec) - (-88120337175205329 # 1000000000000000))
        <= 1 # 140737488355328)%Q.
Proof.
  exists (mkGpsRecord 63879058835 (Finite false 5878577414799354 (-47))
                      (Finite true 6200917463531519 (-46))).
  repeat split; try (vm_compute; reflexivity); vm_compute; discriminate.
Qed.

(** ** Processing one file *)

Lemma Sorted_key_le_head {A} (key : A -> Z) x l y :
  Sorted (key_le key) (x :: l) -> y ∈ x :: l -> key x <= key y.
Proof.
  intros Hs Hy. apply Sorted_StronglySorted in Hs.
  - apply StronglySorted_cons in Hs as [Hx _]. rewrite Forall_forall in Hx.
    apply elem_of_cons in Hy as [->|Hy]; [lia|]. by apply Hx.
  - unfold key_le. intros a b c ??. lia.
Qed.

(** C3, as the code has it.  When no start time could be read, the first
    record of the parser's output, which is an earliest one, supplies it, and
    the result is the one an extracted start time of that value gives:
    nothing in it tells the two apart.  When there is no record either,
    [ValueError] is raised. *)
Theorem missing_start_time_uses_earliest_record
    (input_file : string) (clip_files : list string) (get_clip_duration : string -> Q)
    (raw : text) (L : Z) :
  process_single_file input_file clip_files get_clip_duration raw None L
  = match parse_gps_data raw with
    | [] => Raise ValueError
    | rec0 :: _ =>
      process_single_file input_file clip_files get_clip_duration raw
                          (Some (timestamp rec0)) L
    end
  /\ forall rec0 rest, parse_gps_data raw = rec0 :: rest ->
       forall rec, rec ∈ parse_gps_data raw -> timestamp rec0 <= timestamp rec.
Proof.
  split.
  - unfold process_single_file. by destruct (parse_gps_data raw).
  - intros rec0 rest Heq rec Hin. rewrite Heq in Hin.
    apply (Sorted_key_le_head timestamp rec0 rest rec); [|done].
    rewrite <- Heq, parse_gps_data_eq. apply sort_by_Sorted.
Qed.

Lemma missing_start_time_uses_earliest_record_witness :
  parse_gps_data sample_blob = sample_record 5 :: [sample_record 15; sample_record 25]
  /\ forall rec, rec ∈ parse_gps_data sample_blob ->
       timestamp (sample_record 5) <= timestamp rec.
Proof.
  assert (parse_gps_data sample_blob
          = sample_record 5 :: [sample_record 15; sample_record 25]) as Heq.
  { vm_compute. reflexivity. }
  split; [exact Heq|].
  exact (proj2 (missing_start_time_uses_earliest_record
                  "v.mp4" sample_files sample_durations sample_blob 10) _ _ Heq).
Defined.

(** C3 as stated fails: the run that falls back to the earliest record
    returns exactly what a run with that start time extracted returns, so no
    consumer of the result can be told that the fallback was taken. *)
Lemma fallback_is_not_flagged :
  ~ exists flag : result (list Clip) -> bool,
      flag (process_single_file "v.mp4" sample_files sample_durations sample_blob
                                None 10) = true
      /\ flag (process_single_file "v.mp4" sample_files sample_durations sample_blob
                                   (Some (sample_start + 5)) 10) = false.
Proof.
  assert (process_single_file "v.mp4" sample_files sample_durations sample_blob None 10
          = process_single_file "v.mp4" sample_files sample_durations sample_blob
                                (Some (sample_start + 5)) 10) as Heq.
  { vm_compute. reflexivity. }
  intros (flag & Htrue & Hfalse). rewrite Heq in Htrue. congruence.
Qed.

(** When no clip is discarded, positions and [clip_index] agree, and every
    clip receives the records of the window of its [clip_index]. *)
Lemma collect_clips_all_kept input_file dur L files : forall idx,
  Forall (fun f => keeps_duration (dur f) L = true) files ->
  collect_clips input_file dur L idx files
  = imap (fun j f => mkClip input_file f (idx + j) (dur f) false None) files.
Proof.
  induction files as [|f files IH]; intros idx Hall; [done|].
  inv Hall. cbn [collect_clips imap]. rewrite H1, IH by done.
  rewrite Nat.add_0_r. f_equal. apply imap_ext. intros j x _. simpl. f_equal. lia.
Qed.

Lemma windows_follow_clip_index_when_no_clip_is_discarded
    input_file files dur raw t0 L :
  Forall (fun f => keeps_duration (dur f) L = true) files ->
  windows_in_range t0 L (length files) ->
  exists out,
    process_single_file input_file files dur raw (Some t0) L = Ok out
    /\ forall i c, out !! i = Some c ->
         clip_index c = i
         /\ gps_data c = Some (records_of_clip_index t0 L (parse_gps_data raw) c).
Proof.
  intros Hall Hr. unfold process_single_file. cbv beta iota zeta.
  rewrite (collect_clips_all_kept _ _ _ _ 0%nat Hall).
  eexists. split.
  - apply associate_gps_with_clips_imap. by rewrite length_imap.
  - intros i c Hc. rewrite !list_lookup_imap in Hc.
    destruct (files !! i) as [f|]; [|done]. by injection Hc as <-.
Qed.

(** C1.  The first of three clips is discarded for its duration; the clips
    of [clip_index] 1 and 2 are then at positions 0 and 1 and receive the
    records of windows 0 and 1, not those of windows 1 and 2. *)
Theorem discarded_clip_shifts_later_windows :
  process_single_file "v.mp4" sample_files sample_durations sample_blob
                      (Some sample_start) 10
  = Ok [set_gps_data (sample_clip 1 "v_clip_001.mp4") [sample_record 5];
        set_gps_data (sample_clip 2 "v_clip_002.mp4") [sample_record 15]]
  /\ records_of_clip_index sample_start 10 (parse_gps_data sample_blob)
                           (sample_clip 1 "v_clip_001.mp4") = [sample_record 15]
  /\ records_of_clip_index sample_start 10 (parse_gps_data sample_blob)
                           (sample_clip 2 "v_clip_002.mp4") = [sample_record 25].
Proof. repeat split; vm_compute; reflexivity. Qed.

(** * Further properties of the code *)

(** ** The associator *)

Lemma datetime_add_seconds_raises dt secs e :
  datetime_add_seconds dt secs = Raise e -> e = OverflowError.
Proof.
  unfold datetime_add_seconds. cbv zeta.
  by destruct ((0 <=? _) && (_ <=? MAX_DATETIME)); intros [= <-].
Qed.

Lemma associate_from_raises clips : forall i recs t0 L e,
  associate_from i clips recs t0 L = Raise e -> e = OverflowError.
Proof.
  induction clips as [|c clips IH]; intros i recs t0 L e; [done|].
  cbn [associate_from].
  destruct (datetime_add_seconds t0 (Z.of_nat i * L)) as [s|e1] eqn:Hs;
    cbn [mbind result_bind];
    [|intros [= <-]; by eapply datetime_add_seconds_raises].
  destruct (datetime_add_seconds t0 ((Z.of_nat i + 1) * L)) as [s'|e2] eqn:He;
    cbn [mbind result_bind];
    [|intros [= <-]; by eapply datetime_add_seconds_raises].
  destruct (associate_from (S i) clips recs t0 L) as [rest|e'] eqn:Hrest;
    cbn [mbind result_bind]; [done|].
  intros [= <-]. by eapply IH.
Qed.

(** X1.  The associator returns exactly when both ends of every window are
    datetimes of the years 1..9999; otherwise it raises [OverflowError] (and
    no other exception), as the sum of a datetime and a timedelta does. *)
Theorem associate_raises_exactly_outside_the_calendar
    (clips : list Clip) (recs : list GpsRecord) (t0 : datetime) (L : Z) :
  (windows_in_range t0 L (length clips)
   /\ exists out, associate_gps_with_clips clips recs t0 L = Ok out)
  \/ (~ windows_in_range t0 L (length clips)
      /\ associate_gps_with_clips clips recs t0 L = Raise OverflowError).
Proof.
  destruct (associate_gps_with_clips clips recs t0 L) as [out|e] eqn:Ha.
  - left. split; [by eapply associate_gps_with_clips_returns|eauto].
  - right. split.
    + intros Hr. by rewrite associate_gps_with_clips_imap in Ha.
    + f_equal. by eapply associate_from_raises.
Qed.

(** X2.  Running the associator on its own result, with the same records,
    start time and segment length, returns that result again: [gps_data] is
    overwritten with the same lists. *)
Theorem associate_is_idempotent
    (clips out : list Clip) (recs : list GpsRecord) (t0 : datetime) (L : Z) :
  associate_gps_with_clips clips recs t0 L = Ok out ->
  associate_gps_with_clips out recs t0 L = Ok out.
Proof.
  intros Ha. pose proof (associate_gps_with_clips_returns _ _ _ _ _ Ha) as Hr.
  rewrite associate_gps_with_clips_imap in Ha by done. injection Ha as <-.
  rewrite associate_gps_with_clips_imap by (by rewrite length_imap).
  f_equal. apply list_eq. intros i. rewrite !list_lookup_imap.
  by destruct (clips !! i).
Qed.

Lemma associate_is_idempotent_witness :
  associate_gps_with_clips sample_clips sample_records sample_start 10 = Ok sample_out
  /\ associate_gps_with_clips sample_out sample_records sample_start 10 = Ok sample_out.
Proof.
  assert (associate_gps_with_clips sample_clips sample_records sample_start 10
          = Ok sample_out) as Ha by (vm_compute; reflexivity).
  split; [exact Ha|].
  exact (associate_is_idempotent sample_clips sample_out sample_records sample_start 10 Ha).
Defined.

Lemma in_window_div t0 L i r :
  0 < L ->
  in_window t0 L i r
  <-> t0 <= timestamp r /\ (timestamp r - t0) / L = Z.of_nat i.
Proof.
  intros HL. unfold in_window, window_start, window_end.
  pose proof (Z.div_mod (timestamp r - t0) L ltac:(lia)) as Hdm.
  pose proof (Z.mod_pos_bound (timestamp r - t0) L HL) as Hm.
  split.
  - intros [Hlo Hhi]. split; [nia|]. symmetry.
    apply (Z.div_unique_pos _ _ _ (timestamp r - t0 - Z.of_nat i * L)); lia.
  - intros [Hlo Hq]. rewrite Hq in Hdm. nia.
Qed.

(** X3.  With a positive segment length, a record of the input goes to the
    clip at position [(timestamp - video_start) // segment_length] and to no
    other; a record earlier than the start time, or at or after the end of
    the last window, goes to no clip. *)
Theorem record_goes_to_the_clip_of_its_offset
    (clips : list Clip) (recs : list GpsRecord) (t0 : datetime) (L : Z) (r : GpsRecord) :
  0 < L ->
  windows_in_range t0 L (length clips) ->
  r ∈ recs ->
  exists out,
    associate_gps_with_clips clips recs t0 L = Ok out
    /\ (forall i, assigned out i r
         <-> t0 <= timestamp r /\ (timestamp r - t0) / L = Z.of_nat i
             /\ (i < length clips)%nat)
    /\ (timestamp r < t0 -> forall i, ~ assigned out i r)
    /\ (t0 + Z.of_nat (length clips) * L <= timestamp r -> forall i, ~ assigned out i r).
Proof.
  intros HL Hr Hin. eexists. split; [by apply associate_gps_with_clips_imap|].
  split; [|split].
  - intros i. rewrite assigned_iff, in_window_div by done. tauto.
  - intros Hlt i (_ & [Hlo _] & _)%assigned_iff. unfold window_start in Hlo. nia.
  - intros Hge i (Hi & [_ Hhi] & _)%assigned_iff. unfold window_end in Hhi. nia.
Qed.

Lemma record_goes_to_the_clip_of_its_offset_witness :
  exists out,
    associate_gps_with_clips sample_clips sample_records sample_start 10 = Ok out
    /\ (forall i, assigned out i (sample_record 15)
         <-> sample_start <= timestamp (sample_record 15)
             /\ (timestamp (sample_record 15) - sample_start) / 10 = Z.of_nat i
             /\ (i < length sample_clips)%nat)
    /\ (timestamp (sample_record 15) < sample_start ->
        forall i, ~ assigned out i (sample_record 15))
    /\ (sample_start + Z.of_nat (length sample_clips) * 10 <= timestamp (sample_record 15) ->
        forall i, ~ assigned out i (sample_record 15)).
Proof.
  apply (record_goes_to_the_clip_of_its_offset
           sample_clips sample_records sample_start 10 (sample_record 15)).
  - lia.
  - exact sample_windows_in_range.
  - unfold sample_records. apply list_elem_of_In. simpl. auto.
Defined.

Lemma records_in_before s e recs :
  Forall (fun r => e <= timestamp r) recs -> records_in s e recs = [].
Proof.
  unfold records_in. induction 1 as [|r recs Hr _ IH]; [done|].
  rewrite filter_cons_False by lia. exact IH.
Qed.

Lemma records_in_empty s e recs : e <= s -> records_in s e recs = [].
Proof.
  intros Hes. unfold records_in. induction recs as [|r recs IH]; [done|].
  rewrite filter_cons_False by lia. exact IH.
Qed.

(** On a sorted list, the records of two adjacent windows are those of
    their union. *)
Lemma records_in_adjacent a b c recs :
  a <= b <= c -> StronglySorted by_time recs ->
  records_in a b recs ++ records_in b c recs = records_in a c recs.
Proof.
  intros Habc. induction 1 as [|r recs Hs IH Hall]; [done|].
  unfold records_in in *. rewrite !filter_cons.
  destruct (decide (a <= timestamp r < b)) as [Hab|Hab].
  - rewrite decide_False, decide_True by lia. simpl. by rewrite IH.
  - destruct (decide (b <= timestamp r < c)) as [Hbc|Hbc].
    + rewrite decide_True by lia.
      assert (filter (fun rec => a <= timestamp rec < b) recs = []) as ->.
      { apply (records_in_before a b recs). eapply Forall_impl; [exact Hall|].
        unfold by_time. intros x Hx. simpl in Hx. lia. }
      simpl. f_equal. rewrite <- IH.
      assert (filter (fun rec => a <= timestamp rec < b) recs = []) as ->; [|done].
      apply (records_in_before a b recs). eapply Forall_impl; [exact Hall|].
      unfold by_time. intros x Hx. simpl in Hx. lia.
    + rewrite decide_False by lia. exact IH.
Qed.

Lemma concat_windows recs t0 L (clips : list Clip) : forall i,
  0 <= L -> StronglySorted by_time recs ->
  concat (gps_of <$> imap (fun j c => set_gps_data c
             (records_in (window_start t0 L (i + j)) (window_end t0 L (i + j)) recs))
           clips)
  = records_in (window_start t0 L i) (window_start t0 L (i + length clips)) recs.
Proof.
  intros i HL Hs. revert i. induction clips as [|c clips IH]; intros i.
  - simpl. rewrite Nat.add_0_r. symmetry. by apply records_in_empty.
  - cbn [imap fmap list_fmap concat length]. unfold gps_of at 1. simpl gps_data. simpl default.
    rewrite Nat.add_0_r.
    rewrite (imap_ext _ (fun j c0 => set_gps_data c0
               (records_in (window_start t0 L (S i + j)) (window_end t0 L (S i + j)) recs)))
      by (intros j x _; simpl; by rewrite Nat.add_succ_r).
    rewrite (IH (S i)).
    replace (window_end t0 L i) with (window_start t0 L (S i))
      by (unfold window_start, window_end; lia).
    replace (i + S (length clips))%nat with (S i + length clips)%nat by lia.
    apply records_in_adjacent; [|done]. unfold window_start. nia.
Qed.

(** X4.  For a sorted input and a non-negative segment length, the
    [gps_data] lists of the returned clips, put end to end, are exactly the
    input records from the start time up to the end of the last window, in
    their input order: no record is lost, repeated or moved. *)
Theorem gps_data_lists_chain_to_the_covered_records
    (clips : list Clip) (recs : list GpsRecord) (t0 : datetime) (L : Z) :
  0 <= L ->
  Sorted by_time recs ->
  windows_in_range t0 L (length clips) ->
  exists out,
    associate_gps_with_clips clips recs t0 L = Ok out
    /\ concat (gps_of <$> out)
       = records_in t0 (t0 + Z.of_nat (length clips) * L) recs.
Proof.
  intros HL Hs Hr. eexists. split; [by apply associate_gps_with_clips_imap|].
  pose proof (concat_windows recs t0 L clips 0 HL) as Hc. simpl in Hc.
  rewrite Hc by (apply Sorted_StronglySorted; [apply by_time_trans|done]).
  unfold window_start. f_equal; lia.
Qed.

Lemma gps_data_lists_chain_to_the_covered_records_witness :
  exists out,
    associate_gps_with_clips sample_clips sample_records sample_start 10 = Ok out
    /\ concat (gps_of <$> out)
       = records_in sample_start (sample_start + Z.of_nat (length sample_clips) * 10)
                    sample_records.
Proof.
  apply (gps_data_lists_chain_to_the_covered_records
           sample_clips sample_records sample_start 10).
  - lia.
  - unfold sample_records, by_time. repeat (constructor; simpl; try lia).
  - exact sample_windows_in_range.
Defined.

(** ** Processing one file *)




Lemma process_single_file_returns input_file files dur raw start L out :
  process_single_file input_file files dur raw start L = Ok out ->
  exists t0,
    out = imap (fun j c => set_gps_data c
                 (records_in (window_start t0 L j) (window_end t0 L j) (parse_gps_data raw)))
               (collect_clips input_file dur L 0 files).
Proof.
  unfold process_single_file. cbv zeta.
  destruct (match start, parse_gps_data raw with
            | None, rec0 :: _ => Some (timestamp rec0)
            | video_start, _ => video_start
            end) as [t0|]; [|done].
  intros Ha. exists t0.
  pose proof (associate_gps_with_clips_returns _ _ _ _ _ Ha) as Hr.
  rewrite associate_gps_with_clips_imap in Ha by done. by injection Ha as <-.
Qed.








(** ** The metadata parser *)

Lemma match_at_pattern_not_digit c s :
  is_digit c = false -> match_at pattern (c :: s) = None.
Proof.
  intros Hc. unfold match_at, pattern, re_timestamp. cbn [cat run digits rep_splits].
  by rewrite Hc.
Qed.

Lemma findall_filler c s :
  is_digit c = false -> findall pattern (c :: s) = findall pattern s.
Proof.
  intros Hc. unfold findall. cbn [findall_from].
  by rewrite (match_at_pattern_not_digit c s Hc).
Qed.

Lemma findall_well_separated s l :
  well_separated s l -> groups3 <$> findall pattern s = l.
Proof.
  induction 1 as [|c s l Hc _ IH|ts sp1 lat sp2 lon s l Hts Hsp1 Hlat Hsp2 Hlon Hstop _ IH].
  - reflexivity.
  - by rewrite findall_filler.
  - rewrite findall_pattern by done. rewrite fmap_cons, IH. reflexivity.
Qed.

(** X7.  In a blob made of well-formed records and of filler that holds no
    digit, where each record is followed by the end of the blob or by a
    character that is not a digit, the parser finds exactly these records, in
    their order in the blob; it returns, sorted, those whose date-time is
    valid. *)
Theorem well_separated_records_are_all_found
    (raw : text) (l : list (text * text * text)) :
  well_separated raw l ->
  matches_of raw = l
  /\ parse_gps_data raw = sort_by timestamp (omap parsed l).
Proof.
  intros Hw. apply findall_well_separated in Hw.
  assert (matches_of raw = l) as Hm by exact Hw.
  split; [exact Hm|]. by rewrite parse_gps_data_eq, encountered_eq, Hm.
Qed.

Ltac timestamp_parts Y m d H M S :=
  exists (txt Y), (txt m), (txt d), (txt H), (txt M), (txt S);
  repeat split; repeat constructor.

Lemma well_separated_line ts lat lon s l :
  is_timestamp_text ts -> is_optsigned_text lat -> is_signed_text lon ->
  well_separated s l ->
  well_separated (ts ++ [] ++ lat ++ [] ++ lon ++ "010"%char :: s) ((ts, lat, lon) :: l).
Proof.
  intros Hts Hlat Hlon Hw.
  apply ws_record; [done|constructor|done|constructor|done|reflexivity|].
  by apply ws_filler.
Qed.

Lemma sample_blob_well_separated :
  well_separated sample_blob
    [(txt "2025:03:31 23:00:05Z", txt "41.7698047868907", txt "-88.120337175205329");
     (txt "2025:03:31 23:00:15Z", txt "41.7698047868907", txt "-88.120337175205329");
     (txt "2025:03:31 23:00:25Z", txt "41.7698047868907", txt "-88.120337175205329")].
Proof.
  destruct canonical_parts as (_ & Hlat & Hlon).
  assert (is_signed_text (txt "-88.120337175205329")) as Hlon'.
  { exists "-"%char, (txt "88.120337175205329"). done. }
  assert (is_timestamp_text (txt "2025:03:31 23:00:05Z")) as H1
    by timestamp_parts "2025" "03" "31" "23" "00" "05".
  assert (is_timestamp_text (txt "2025:03:31 23:00:15Z")) as H2
    by timestamp_parts "2025" "03" "31" "23" "00" "15".
  assert (is_timestamp_text (txt "2025:03:31 23:00:25Z")) as H3
    by timestamp_parts "2025" "03" "31" "23" "00" "25".
  pose proof (ws_record _ [] _ [] _ [] [] H3 (List.Forall_nil _) (or_introl Hlat)
                        (List.Forall_nil _) Hlon' I ws_end) as W3.
  pose proof (well_separated_line _ _ _ _ _ H2 (or_introl Hlat) Hlon' W3) as W2.
  exact (well_separated_line _ _ _ _ _ H1 (or_introl Hlat) Hlon' W2).
Qed.

Lemma well_separated_records_are_all_found_witness :
  matches_of sample_blob
  = [(txt "2025:03:31 23:00:05Z", txt "41.7698047868907", txt "-88.120337175205329");
     (txt "2025:03:31 23:00:15Z", txt "41.7698047868907", txt "-88.120337175205329");
     (txt "2025:03:31 23:00:25Z", txt "41.7698047868907", txt "-88.120337175205329")].
Proof.
  exact (proj1 (well_separated_records_are_all_found _ _ sample_blob_well_separated)).
Defined.

Lemma days_before_year_bounds y :
  1 <= y <= 9998 -> 0 <= _days_before_year y <= 3651330.
Proof.
  intros Hy. unfold _days_before_year. cbv zeta.
  pose proof (Z.div_mod (y - 1) 4 ltac:(lia)).
  pose proof (Z.mod_pos_bound (y - 1) 4 ltac:(lia)).
  pose proof (Z.div_mod (y - 1) 100 ltac:(lia)).
  pose proof (Z.mod_pos_bound (y - 1) 100 ltac:(lia)).
  pose proof (Z.div_mod (y - 1) 400 ltac:(lia)).
  pose proof (Z.mod_pos_bound (y - 1) 400 ltac:(lia)).
  lia.
Qed.

Lemma day_of_year_bounds y m d :
  1 <= m <= 12 -> 1 <= d <= _days_in_month y m ->
  1 <= _days_before_month y m + d <= 365 + (if _is_leap y then 1 else 0).
Proof.
  intros Hm. unfold _days_before_month, _days_in_month.
  assert (m = 1 \/ m = 2 \/ m = 3 \/ m = 4 \/ m = 5 \/ m = 6 \/ m = 7 \/ m = 8
          \/ m = 9 \/ m = 10 \/ m = 11 \/ m = 12) as Hcases by lia.
  destruct (_is_leap y);
    repeat (destruct Hcases as [->|Hcases]; [simpl; lia|]); subst m; simpl; lia.
Qed.

Lemma ymd2ord_bounds y m d :
  1 <= y <= 9999 -> 1 <= m <= 12 -> 1 <= d <= _days_in_month y m ->
  1 <= _ymd2ord y m d <= _MAXORDINAL.
Proof.
  intros Hy Hm Hd. pose proof (day_of_year_bounds y m d Hm Hd) as Hdoy.
  unfold _ymd2ord, _MAXORDINAL.
  destruct (decide (y = 9999)) as [->|Hne].
  - change (_days_before_year 9999) with 3651694. change (_is_leap 9999) with false in Hdoy.
    lia.
  - pose proof (days_before_year_bounds y ltac:(lia)).
    destruct (_is_leap y); lia.
Qed.

Lemma datetime_new_in_range y m d H M S t :
  datetime_new y m d H M S = Ok t -> datetime_in_range t.
Proof.
  unfold datetime_new, MINYEAR, MAXYEAR.
  destruct (_ && _) eqn:Hc; [|done]. intros [= <-].
  repeat (apply andb_prop in Hc as [Hc ?]).
  repeat match goal with
         | H : (_ <=? _) = true |- _ => apply Z.leb_le in H
         end.
  pose proof (ymd2ord_bounds y m d ltac:(lia) ltac:(lia) ltac:(lia)) as Ho.
  unfold datetime_in_range, MAX_DATETIME, _MAXORDINAL in *. lia.
Qed.

Lemma strptime_in_range ts t : strptime ts = Ok t -> datetime_in_range t.
Proof.
  unfold strptime. cbv zeta. destruct (_ && _); [|done]. apply datetime_new_in_range.
Qed.

Lemma parse_record_ok m r :
  parse_record m = Ok r ->
  strptime m.1.1 = Ok (timestamp r)
  /\ float_of_text m.1.2 = Ok (latitude r)
  /\ float_of_text m.2 = Ok (longitude r).
Proof.
  destruct m as [[ts lat] lon]. unfold parse_record. simpl.
  destruct (strptime ts) as [t|]; cbn [mbind result_bind]; [|done].
  destruct (float_of_text lat) as [a|]; cbn [mbind result_bind]; [|done].
  destruct (float_of_text lon) as [b|]; cbn [mbind result_bind]; [|done].
  by intros [= <-].
Qed.

(** X8.  Every record the parser returns comes from a match of the blob:
    its timestamp is the date-time of the match's first group, a date-time
    of the years 1..9999 (a group such as month 13 or 30 February never
    yields a record), and its latitude and longitude are the floats of the
    second and third groups. *)
Theorem returned_records_come_from_valid_matches (raw : text) :
  Forall (fun r =>
            datetime_in_range (timestamp r)
            /\ exists m, m ∈ matches_of raw
                 /\ strptime m.1.1 = Ok (timestamp r)
                 /\ float_of_text m.1.2 = Ok (latitude r)
                 /\ float_of_text m.2 = Ok (longitude r))
         (parse_gps_data raw).
Proof.
  apply Forall_forall. intros r Hr.
  rewrite parse_gps_data_eq, sort_by_Permutation, encountered_eq in Hr.
  apply list_elem_of_omap in Hr as (m & Hm & Hp). unfold parsed in Hp.
  destruct (parse_record m) as [r'|] eqn:Hpr; [|done]. injection Hp as ->.
  apply parse_record_ok in Hpr as (Hts & Hlat & Hlon).
  split; [by eapply strptime_in_range|]. by exists m.
Qed.

(** ** Processing a folder *)




Lemma lower_char_4 c : is_char "4" (lower_char c) = is_char "4" c.
Proof. by destruct c as [[] [] [] [] [] [] [] []]. Qed.

Lemma lower_char_p c : is_char "p" (lower_char c) = is_char "p" c || is_char "P" c.
Proof. by destruct c as [[] [] [] [] [] [] [] []]. Qed.

Lemma lower_char_m c : is_char "m" (lower_char c) = is_char "m" c || is_char "M" c.
Proof. by destruct c as [[] [] [] [] [] [] [] []]. Qed.

Lemma lower_char_dot c : is_char "." (lower_char c) = is_char "." c.
Proof. by destruct c as [[] [] [] [] [] [] [] []]. Qed.

Lemma startswith_nil s : startswith s [] = true.
Proof. by destruct s. Qed.

Lemma is_char_true a c : is_char a c = true <-> c = a.
Proof. unfold is_char. rewrite Ascii.eqb_eq. split; congruence. Qed.

(** X10.  [process_folder] takes a name for a video exactly when it ends in
    [.mp4] written in any mix of cases: a point, [m] or [M], [p] or [P],
    and [4]. *)
Theorem mp4_names_in_any_case (file : text) :
  is_mp4 file = true
  <-> exists stem a b,
        file = stem ++ ["."%char; a; b; "4"%char]
        /\ (a = "m"%char \/ a = "M"%char) /\ (b = "p"%char \/ b = "P"%char).
Proof.
  unfold is_mp4, endswith, lower. rewrite <- fmap_reverse.
  change (reverse (txt ".mp4")) with ["4"%char; "p"%char; "m"%char; "."%char].
  split.
  - intros Hs. rewrite <- (reverse_involutive file).
    destruct (reverse file) as [|c4 [|c3 [|c2 [|c1 r]]]];
      cbn [startswith fmap list_fmap] in Hs;
      try (by rewrite ?andb_false_r in Hs).
    rewrite startswith_nil, andb_true_r, lower_char_4, lower_char_p, lower_char_m,
      lower_char_dot in Hs.
    apply andb_prop in Hs as [H4 Hs]. apply andb_prop in Hs as [Hp Hs].
    apply andb_prop in Hs as [Hm Hd].
    apply is_char_true in H4 as ->, Hd as ->.
    exists (reverse r), c2, c3. split.
    + rewrite !reverse_cons, <- !app_assoc. reflexivity.
    + rewrite !orb_true_iff, !is_char_true in Hm, Hp. done.
  - intros (stem & a & b & -> & Ha & Hb).
    rewrite reverse_app. cbn [reverse rev_append app startswith fmap list_fmap].
    change (reverse ["."%char; a; b; "4"%char]) with ["4"%char; b; a; "."%char].
    cbn [app startswith fmap list_fmap].
    rewrite startswith_nil, lower_char_4, lower_char_p, lower_char_m, lower_char_dot.
    assert (is_char "p" b || is_char "P" b = true) as ->
      by (rewrite orb_true_iff, !is_char_true; tauto).
    assert (is_char "m" a || is_char "M" a = true) as ->
      by (rewrite orb_true_iff, !is_char_true; tauto).
    reflexivity.
Qed.

(** ** Durations and raw GPS text *)




Lemma process_single_file_without_records input_file files dur raw start L :
  parse_gps_data raw = [] ->
  (start = None -> process_single_file input_file files dur raw start L = Raise ValueError)
  /\ (forall out, process_single_file input_file files dur raw start L = Ok out ->
        Forall (fun c => gps_data c = Some []) out).
Proof.
  intros Hp. split.
  - intros ->. unfold process_single_file. by rewrite Hp.
  - intros out (t0 & ->)%process_single_file_returns. rewrite Hp.
    apply Forall_forall. intros c (j & Hj)%list_elem_of_lookup.
    rewrite list_lookup_imap in Hj. destruct (_ !! j); [|done]. by injection Hj as <-.
Qed.

(** X12.  When exiftool fails, [extract_raw_gps_data] gives the empty text
    and no record is parsed: [process_single_file] then raises [ValueError]
    if the start time is unknown too, and otherwise every clip it returns
    has an empty [gps_data] list. *)
Theorem failed_exiftool_leaves_clips_without_records
    (input_file : string) (files : list string) (dur : string -> Q)
    (start : option datetime) (L : Z) :
  (start = None ->
   process_single_file input_file files dur (extract_raw_gps_data None) start L
   = Raise ValueError)
  /\ (forall out,
        process_single_file input_file files dur (extract_raw_gps_data None) start L
        = Ok out ->
        Forall (fun c => gps_data c = Some []) out).
Proof. by apply process_single_file_without_records. Qed.

(** ** The start time of a video *)




Lemma lstrip_unchanged s : stops is_space s -> lstrip s = s.
Proof. destruct s as [|c s]; [done|]. simpl. by intros ->. Qed.






(** *** Reading back a formatted date-time *)

Lemma Z_range_cases (P : Z -> Prop) (n : nat) (lo : Z) :
  (forall i, (i < n)%nat -> P (lo + Z.of_nat i)) ->
  forall k, lo <= k < lo + Z.of_nat n -> P k.
Proof.
  intros HP k Hk. replace k with (lo + Z.of_nat (Z.to_nat (k - lo))) by lia.
  apply HP. lia.
Qed.

Tactic Notation "by_range_cases" integer(n) :=
  intros i Hi;
  do n (destruct i as [|i]; [intros; vm_compute; reflexivity|]);
  exfalso; lia.

Lemma digit_char_is_digit k : 0 <= k <= 9 -> is_digit (digit_char k) = true.
Proof.
  intros Hk. apply (Z_range_cases (fun k => is_digit (digit_char k) = true) 10 0); [|lia].
  by_range_cases 10.
Qed.

Lemma digit_value_digit_char k : 0 <= k <= 9 -> digit_value (digit_char k) = k.
Proof.
  intros Hk. apply (Z_range_cases (fun k => digit_value (digit_char k) = k) 10 0); [|lia].
  by_range_cases 10.
Qed.

Lemma int_of_group_two_digits n : 0 <= n <= 99 -> int_of_group (two_digits n) = n.
Proof.
  intros Hn. unfold int_of_group, two_digits. cbn [List.filter].
  rewrite !digit_char_is_digit by (Z.div_mod_to_equations; lia).
  unfold int_of_digits. cbn [fold_left].
  rewrite !digit_value_digit_char by (Z.div_mod_to_equations; lia).
  Z.div_mod_to_equations; lia.
Qed.

Lemma int_of_group_four_digits n : 0 <= n <= 9999 -> int_of_group (four_digits n) = n.
Proof.
  intros Hn. unfold int_of_group, four_digits. cbn [List.filter].
  rewrite !digit_char_is_digit by (Z.div_mod_to_equations; lia).
  unfold int_of_digits. cbn [fold_left].
  rewrite !digit_value_digit_char by (Z.div_mod_to_equations; lia).
  Z.div_mod_to_equations; lia.
Qed.

Lemma reads_month m : 1 <= m <= 12 -> reads_two_digits dir_m m.
Proof.
  intros Hm. apply (Z_range_cases (reads_two_digits dir_m) 12 1); [|lia].
  unfold reads_two_digits. by_range_cases 12.
Qed.

Lemma reads_day d : 1 <= d <= 31 -> reads_two_digits dir_d d.
Proof.
  intros Hd. apply (Z_range_cases (reads_two_digits dir_d) 31 1); [|lia].
  unfold reads_two_digits. by_range_cases 31.
Qed.

Lemma reads_hour H : 0 <= H <= 23 -> reads_two_digits dir_H H.
Proof.
  intros HH. apply (Z_range_cases (reads_two_digits dir_H) 24 0); [|lia].
  unfold reads_two_digits. by_range_cases 24.
Qed.

Lemma reads_minute M : 0 <= M <= 59 -> reads_two_digits dir_M M.
Proof.
  intros HM. apply (Z_range_cases (reads_two_digits dir_M) 60 0); [|lia].
  unfold reads_two_digits. by_range_cases 60.
Qed.

Lemma reads_second S : 0 <= S <= 59 -> reads_two_digits dir_S S.
Proof.
  intros HS. apply (Z_range_cases (reads_two_digits dir_S) 60 0); [|lia].
  unfold reads_two_digits. by_range_cases 60.
Qed.

Lemma run_alts_single r s : run_alts [r] s = run r s.
Proof. unfold run_alts. rewrite bind_cons. simpl. apply app_nil_r. Qed.

Lemma reads_year y rest :
  0 <= y <= 9999 ->
  head (run_alts dir_Y (four_digits y ++ rest)) = Some ([], four_digits y, rest).
Proof.
  intros Hy. unfold dir_Y. rewrite run_alts_single.
  apply (match_digits 4 (four_digits y) rest). split; [|done].
  unfold four_digits.
  repeat (constructor; [apply digit_char_is_digit; Z.div_mod_to_equations; lia|]).
  constructor.
Qed.

Lemma reads_lit a rest :
  head (run_alts [lit a] (a :: rest)) = Some ([], [a], rest).
Proof.
  rewrite run_alts_single. apply match_lit.
Qed.

Lemma reads_one_blank c rest :
  is_space c = true -> stops is_space rest ->
  head (run_alts [Rep is_space 1 None] (c :: rest)) = Some ([], [c], rest).
Proof.
  intros Hc Hrest. rewrite run_alts_single.
  apply (match_many1 is_space [c] rest); [by repeat constructor|done|done].
Qed.

Lemma head_run_format_cons alts items s g w s1 ws rest :
  head (run_alts alts s) = Some (g, w, s1) ->
  head (run_format items s1) = Some (ws, rest) ->
  head (run_format (alts :: items) s) = Some (w :: ws, rest).
Proof.
  intros H1 H2. cbn [run_format].
  destruct (run_alts alts s) as [|m1 l1]; [done|]. injection H1 as ->.
  rewrite bind_cons. simpl.
  destruct (run_format items s1) as [|k l2]; [done|]. injection H2 as ->.
  by rewrite bind_cons.
Qed.

Lemma two_digits_stop_blank n rest : 0 <= n <= 99 -> stops is_space (two_digits n ++ rest).
Proof.
  intros Hn. unfold two_digits. simpl. apply digit_not_space, digit_char_is_digit.
  Z.div_mod_to_equations; lia.
Qed.

(** [strptime] reads a formatted date-time back into its fields. *)
Lemma strptime_start_text y m d H M S :
  0 <= y <= 9999 -> 1 <= m <= 12 -> 1 <= d <= 31 ->
  0 <= H <= 23 -> 0 <= M <= 59 -> 0 <= S <= 59 ->
  strptime_start (start_text y m d H M S) = datetime_new y m d H M S.
Proof.
  intros Hy Hm Hd HH HM HS. unfold strptime_start, start_text, start_format.
  erewrite head_run_format_cons; [|by apply reads_year|].
  2:{ eapply head_run_format_cons; [apply reads_lit|].
      eapply head_run_format_cons; [by apply reads_month|].
      eapply head_run_format_cons; [apply reads_lit|].
      eapply head_run_format_cons; [by apply reads_day|].
      eapply head_run_format_cons;
        [apply reads_one_blank; [reflexivity|apply two_digits_stop_blank; lia]|].
      eapply head_run_format_cons; [by apply reads_hour|].
      eapply head_run_format_cons; [apply reads_lit|].
      eapply head_run_format_cons; [by apply reads_minute|].
      eapply head_run_format_cons; [apply reads_lit|].
      eapply head_run_format_cons; [by apply (reads_second S HS [])|].
      reflexivity. }
  rewrite int_of_group_four_digits, !int_of_group_two_digits by lia. reflexivity.
Qed.

Lemma lstrip_blanks pre s : all_in is_space pre -> lstrip (pre ++ s) = lstrip s.
Proof. induction 1 as [|c pre Hc _ IH]; [done|]. simpl. by rewrite Hc. Qed.

(** [strip] takes the blanks around a text that neither starts nor ends
    with one. *)
Lemma strip_padded pre core post :
  all_in is_space pre -> all_in is_space post ->
  stops is_space core -> stops is_space (reverse core) ->
  strip (pre ++ core ++ post) = core.
Proof.
  intros Hpre Hpost Hfirst Hlast. unfold strip, rstrip.
  rewrite (lstrip_blanks pre) by done.
  destruct core as [|c core].
  - rewrite app_nil_l, <- (app_nil_r post).
    rewrite (lstrip_blanks post []); [reflexivity|exact Hpost].
  - rewrite (lstrip_unchanged ((c :: core) ++ post)) by exact Hfirst.
    rewrite reverse_app.
    rewrite lstrip_blanks by (apply Forall_reverse; exact Hpost).
    rewrite lstrip_unchanged by exact Hlast. apply reverse_involutive.
Qed.

Lemma startswith_UTC_no c s :
  is_char "U" c = false -> startswith (c :: s) (txt "UTC") = false.
Proof. intros Hc. cbn [txt list_ascii_of_string startswith]. by rewrite Hc. Qed.

Lemma startswith_UTC_yes s : startswith (txt "UTC" ++ s) (txt "UTC") = true.
Proof.
  cbn [txt list_ascii_of_string app startswith]. rewrite startswith_nil. reflexivity.
Qed.

Lemma replace_UTC_absent s1 s2 :
  Forall (fun c => is_char "U" c = false) s1 ->
  replace (txt "UTC") [] (s1 ++ s2) = s1 ++ replace (txt "UTC") [] s2.
Proof.
  unfold replace. induction 1 as [|c s1 Hc _ IH]; [done|].
  rewrite <- app_comm_cons. cbn [replace_from].
  rewrite (startswith_UTC_no c _ Hc). by rewrite IH.
Qed.

Lemma replace_UTC_here s : replace (txt "UTC") [] (txt "UTC" ++ s) = replace (txt "UTC") [] s.
Proof.
  unfold replace. pose proof (startswith_UTC_yes s) as Hs.
  change (txt "UTC" ++ s) with ("U"%char :: "T"%char :: "C"%char :: s) in *.
  cbn [replace_from]. rewrite Hs. reflexivity.
Qed.

Lemma digit_not_U c : is_digit c = true -> is_char "U" c = false.
Proof. by_cases_on_char c. Qed.

Lemma start_text_shape y m d H M S :
  0 <= y <= 9999 -> 0 <= m <= 99 -> 0 <= d <= 99 ->
  0 <= H <= 99 -> 0 <= M <= 99 -> 0 <= S <= 99 ->
  let tx := start_text y m d H M S in
  stops is_space tx /\ stops is_space (reverse tx)
  /\ Forall (fun c => is_char "U" c = false) tx /\ nonempty tx = true.
Proof.
  intros Hy Hm Hd HH HM HS tx. unfold tx, start_text, four_digits, two_digits.
  assert (forall k, 0 <= k <= 9 -> is_space (digit_char k) = false) as Hsp
    by (intros k Hk; by apply digit_not_space, digit_char_is_digit).
  assert (forall k, 0 <= k <= 9 -> is_char "U" (digit_char k) = false) as HU
    by (intros k Hk; by apply digit_not_U, digit_char_is_digit).
  split; [|split; [|split]].
  - simpl. apply Hsp. Z.div_mod_to_equations; lia.
  - cbn [app]. unfold reverse. simpl. apply Hsp. Z.div_mod_to_equations; lia.
  - cbn [app].
    repeat (constructor; [first [reflexivity | apply HU; Z.div_mod_to_equations; lia]|]).
    constructor.
  - reflexivity.
Qed.

Lemma replace_UTC_none s :
  Forall (fun c => is_char "U" c = false) s -> replace (txt "UTC") [] s = s.
Proof.
  intros Hs. rewrite <- (app_nil_r s) at 1. rewrite replace_UTC_absent by done.
  unfold replace. simpl. apply app_nil_r.
Qed.

Lemma strip_blank_before tx :
  stops is_space tx -> stops is_space (reverse tx) -> strip (" "%char :: tx) = tx.
Proof.
  intros Hf Hl. pose proof (strip_padded [" "%char] tx []) as Hs.
  rewrite app_nil_r in Hs. apply Hs; [by repeat constructor|constructor|done|done].
Qed.

Lemma strip_blank_after tx :
  stops is_space tx -> stops is_space (reverse tx) -> strip (tx ++ [" "%char]) = tx.
Proof.
  intros Hf Hl. apply (strip_padded [] tx [" "%char]); [constructor| |done|done].
  by repeat constructor.
Qed.

Lemma strip_clean tx :
  stops is_space tx -> stops is_space (reverse tx) -> strip tx = tx.
Proof.
  intros Hf Hl. pose proof (strip_padded [] tx []) as Hs.
  rewrite app_nil_r in Hs. apply Hs; [constructor|constructor|done|done].
Qed.

(** The three spellings of a start time that the cleaning accepts: the
    date-time alone, with [UTC] in front or with [UTC] behind. *)
Lemma cleaned_start_text tx core :
  stops is_space tx -> stops is_space (reverse tx) ->
  Forall (fun c => is_char "U" c = false) tx -> nonempty tx = true ->
  core = tx \/ core = txt "UTC " ++ tx \/ core = tx ++ txt " UTC" ->
  stops is_space core /\ stops is_space (reverse core) /\ nonempty core = true
  /\ strip (replace (txt "UTC") [] core) = tx.
Proof.
  intros Hfirst Hlast HU Hne [-> | [-> | ->]].
  - split; [done|split; [done|split; [done|]]].
    rewrite replace_UTC_none by done. by apply strip_clean.
  - split; [reflexivity|]. split.
    { rewrite reverse_app. destruct (reverse tx) as [|c r] eqn:Hr; [|exact Hlast].
      apply (f_equal reverse) in Hr. rewrite reverse_involutive in Hr. by subst tx. }
    split; [reflexivity|].
    change (txt "UTC " ++ tx) with (txt "UTC" ++ " "%char :: tx).
    rewrite replace_UTC_here.
    rewrite replace_UTC_none by (constructor; [reflexivity|done]).
    by apply strip_blank_before.
  - split; [by destruct tx|]. split; [by rewrite reverse_app|].
    split; [by destruct tx|].
    change (txt " UTC") with ([" "%char] ++ txt "UTC" ++ []).
    rewrite app_assoc.
    rewrite replace_UTC_absent
      by (apply Forall_app; split; [done|by repeat constructor]).
    rewrite replace_UTC_here. unfold replace at 1. cbn [replace_from].
    rewrite app_nil_r. by apply strip_blank_after.
Qed.

Lemma datetime_new_fields y m d H M S t :
  datetime_new y m d H M S = Ok t ->
  1 <= y <= 9999 /\ 1 <= m <= 12 /\ 1 <= d <= 31
  /\ 0 <= H <= 23 /\ 0 <= M <= 59 /\ 0 <= S <= 59.
Proof.
  unfold datetime_new, MINYEAR, MAXYEAR.
  destruct (_ && _) eqn:Hc; [|done]. intros _.
  repeat (apply andb_prop in Hc as [Hc ?]).
  repeat match goal with
         | H : (_ <=? _) = true |- _ => apply Z.leb_le in H
         end.
  assert (_days_in_month y m <= 31).
  { unfold _days_in_month.
    assert (m = 1 \/ m = 2 \/ m = 3 \/ m = 4 \/ m = 5 \/ m = 6 \/ m = 7 \/ m = 8
            \/ m = 9 \/ m = 10 \/ m = 11 \/ m = 12) as Hcases by lia.
    destruct (_is_leap y);
      repeat (destruct Hcases as [->|Hcases]; [simpl; lia|]); subst m; simpl; lia. }
  lia.
Qed.

Lemma start_time_of_formatted_tag y m d H M S t pre core post :
  datetime_new y m d H M S = Ok t ->
  all_in is_space pre -> all_in is_space post ->
  core = start_text y m d H M S
  \/ core = txt "UTC " ++ start_text y m d H M S
  \/ core = start_text y m d H M S ++ txt " UTC" ->
  start_time_of_tag (Some (pre ++ core ++ post)) = Some t.
Proof.
  intros Hnew Hpre Hpost Hcore.
  pose proof (datetime_new_fields _ _ _ _ _ _ _ Hnew) as (Hy & Hm & Hd & HH & HM & HS).
  destruct (start_text_shape y m d H M S) as (Hf & Hl & HU & Hne); try lia.
  destruct (cleaned_start_text _ core Hf Hl HU Hne Hcore) as (Hcf & Hcl & Hcne & Hclean).
  unfold start_time_of_tag. cbv zeta.
  rewrite (strip_padded pre core post) by done. rewrite Hcne, Hclean.
  rewrite strptime_start_text by lia. by rewrite Hnew.
Qed.

(** X14.  [get_video_start_time] reads back a date-time written as
    [YYYY-MM-DD HH:MM:SS], alone, with [UTC] in front or with [UTC] behind,
    and with any blanks around it (ffprobe ends its line with a newline):
    it returns that date-time when the [encoded_date] tag has this value,
    whatever [creation_time] holds, and when [encoded_date] gives nothing
    and [creation_time] has this value. *)
Theorem start_time_is_read_back
    (ffprobe : string -> option text) (y m d H M S : Z) (t : datetime)
    (pre core post : text) :
  datetime_new y m d H M S = Ok t ->
  all_in is_space pre -> all_in is_space post ->
  core = start_text y m d H M S
  \/ core = txt "UTC " ++ start_text y m d H M S
  \/ core = start_text y m d H M S ++ txt " UTC" ->
  (ffprobe "encoded_date"%string = Some (pre ++ core ++ post) ->
   get_video_start_time ffprobe = Some t)
  /\ (start_time_of_tag (ffprobe "encoded_date"%string) = None ->
      ffprobe "creation_time"%string = Some (pre ++ core ++ post) ->
      get_video_start_time ffprobe = Some t).
Proof.
  intros Hnew Hpre Hpost Hcore.
  pose proof (start_time_of_formatted_tag y m d H M S t pre core post
                Hnew Hpre Hpost Hcore) as Htag.
  unfold get_video_start_time. cbn [first_start_time]. split.
  - intros ->. by rewrite Htag.
  - intros -> ->. by rewrite Htag.
Qed.

Lemma start_time_is_read_back_witness :
  let ffprobe tag :=
    if String.eqb tag "encoded_date"
    then Some (txt "UTC 2025-03-31 23:00:35" ++ ["010"%char]) else None in
  datetime_new 2025 3 31 23 0 35 = Ok 63879058835
  /\ get_video_start_time ffprobe = Some 63879058835.
Proof.
  intros ffprobe. split; [reflexivity|].
  refine (proj1 (start_time_is_read_back ffprobe 2025 3 31 23 0 35 63879058835
                   [] (txt "UTC " ++ start_text 2025 3 31 23 0 35) ["010"%char]
                   eq_refl (List.Forall_nil _) _ (or_intror (or_introl eq_refl))) eq_refl).
  by repeat constructor.
Defined.

(** ** The order of strings and the sort *)

Lemma code_inj a b : code a = code b -> a = b.
Proof.
  unfold code. intros H%(inj Z.of_N).
  by rewrite <- (ascii_N_embedding a), <- (ascii_N_embedding b), H.
Qed.

Lemma text_ltb_irrefl a : text_ltb a a = false.
Proof.
  induction a as [|x a IH]; [done|]. simpl.
  by rewrite Z.ltb_irrefl, Z.eqb_refl, IH.
Qed.

Lemma text_ltb_cons x a y b :
  text_ltb (x :: a) (y :: b) = true
  <-> code x < code y \/ (x = y /\ text_ltb a b = true).
Proof.
  simpl. rewrite orb_true_iff, andb_true_iff, Z.ltb_lt, Z.eqb_eq. split.
  - intros [?|[?%code_inj ?]]; auto.
  - intros [?|[-> ?]]; auto.
Qed.

Lemma text_ltb_trans a : forall b c,
  text_ltb a b = true -> text_ltb b c = true -> text_ltb a c = true.
Proof.
  induction a as [|x a IH]; intros [|y b] [|z c]; try done.
  rewrite !text_ltb_cons. intros [Hxy|[-> Hab]] [Hyz|[-> Hbc]].
  - left. lia.
  - by left.
  - by left.
  - right. split; [done|]. by eapply IH.
Qed.

Lemma text_ltb_total a : forall b,
  text_ltb a b = false -> text_ltb b a = false -> a = b.
Proof.
  induction a as [|x a IH]; intros [|y b]; try done.
  intros Hab Hba.
  assert (~ (code x < code y \/ (x = y /\ text_ltb a b = true))) as Hab'
    by (rewrite <- text_ltb_cons; congruence).
  assert (~ (code y < code x \/ (y = x /\ text_ltb b a = true))) as Hba'
    by (rewrite <- text_ltb_cons; congruence).
  assert (x = y) as -> by (apply code_inj; lia).
  f_equal. apply IH.
  - destruct (text_ltb a b); [|done]. exfalso. apply Hab'. by right.
  - destruct (text_ltb b a); [|done]. exfalso. apply Hba'. by right.
Qed.

Lemma text_ltb_asym a b : text_ltb a b = true -> text_ltb b a = false.
Proof.
  intros Hab. destruct (text_ltb b a) eqn:Hba; [|done].
  pose proof (text_ltb_trans _ _ _ Hab Hba) as Haa. by rewrite text_ltb_irrefl in Haa.
Qed.

Lemma text_ltb_app p a b : text_ltb (p ++ a) (p ++ b) = text_ltb a b.
Proof.
  induction p as [|x p IH]; [done|]. simpl.
  by rewrite Z.ltb_irrefl, Z.eqb_refl, IH.
Qed.

Lemma text_le_trans : Transitive text_le.
Proof.
  unfold text_le. intros a b c Hab Hbc.
  destruct (text_ltb c a) eqn:Hca; [|done]. exfalso.
  destruct (text_ltb a b) eqn:Hab'.
  - pose proof (text_ltb_trans _ _ _ Hca Hab') as Hcb. congruence.
  - assert (a = b) as -> by (by apply text_ltb_total). congruence.
Qed.

Lemma text_le_antisym : AntiSymm eq text_le.
Proof. unfold text_le. intros a b Hab Hba. by apply text_ltb_total. Qed.

Section sort_with.
Context {A : Type} (ltb : A -> A -> bool).
Hypothesis ltb_asym : forall a b, ltb a b = true -> ltb b a = false.

Lemma insert_with_Permutation x l : insert_with ltb x l ≡ₚ x :: l.
Proof.
  induction l as [|y l IH]; [done|]. simpl. destruct (ltb y x); [|done].
  rewrite IH. apply Permutation_swap.
Qed.

Lemma sort_with_Permutation l : sort_with ltb l ≡ₚ l.
Proof.
  induction l as [|x l IH]; [done|]. simpl.
  by rewrite insert_with_Permutation, IH.
Qed.

Lemma insert_with_Sorted x l :
  Sorted (fun a b => ltb b a = false) l ->
  Sorted (fun a b => ltb b a = false) (insert_with ltb x l).
Proof.
  induction 1 as [|y l Hl IH Hy]; simpl; [by repeat constructor|].
  destruct (ltb y x) eqn:Hlt.
  - constructor; [done|]. destruct l as [|z l]; simpl.
    + constructor. by apply ltb_asym.
    + destruct (ltb z x); constructor; [by inv Hy|by apply ltb_asym].
  - constructor; [by constructor|]. by constructor.
Qed.

Lemma sort_with_Sorted l : Sorted (fun a b => ltb b a = false) (sort_with ltb l).
Proof. induction l; simpl; [constructor|by apply insert_with_Sorted]. Qed.
End sort_with.

(** A list of paths sorted strictly is what [sort_with] makes of any of its
    permutations. *)
Lemma sort_with_text_unique (l expected : list text) :
  l ≡ₚ expected -> Sorted text_le expected -> sort_with text_ltb l = expected.
Proof.
  intros Hp Hs.
  apply (@Sorted_unique _ text_le text_le_trans text_le_antisym).
  - apply (sort_with_Sorted text_ltb text_ltb_asym).
  - exact Hs.
  - by rewrite sort_with_Permutation.
Qed.

(** ** Gathering the clips of a video *)

Lemma startswith_app p s : startswith (p ++ s) p = true.
Proof.
  induction p as [|a p IH]; [apply startswith_nil|]. simpl.
  unfold is_char. by rewrite Ascii.eqb_refl.
Qed.

Lemma endswith_app s suffix : endswith (s ++ suffix) suffix = true.
Proof. unfold endswith. rewrite reverse_app. apply startswith_app. Qed.

Lemma is_clip_name_clip_name base n : is_clip_name base (clip_name base n) = true.
Proof.
  unfold is_clip_name, clip_name. rewrite (app_assoc base), startswith_app.
  rewrite !app_assoc. by rewrite endswith_app.
Qed.

Lemma segment_video_single_eq input_file output_dir names :
  segment_video_single input_file output_dir names
  = sort_with text_ltb
      (os_path_join output_dir
         <$> List.filter (is_clip_name (base_name_of input_file)) names).
Proof. reflexivity. Qed.

Lemma List_filter_Permutation {A} (f : A -> bool) (l l' : list A) :
  l ≡ₚ l' -> List.filter f l ≡ₚ List.filter f l'.
Proof.
  induction 1 as [|x l l' _ IH|x y l|l l' l'' _ IH1 _ IH2]; simpl.
  - done.
  - destruct (f x); by rewrite IH.
  - destruct (f x), (f y); try done. apply Permutation_swap.
  - by rewrite IH1.
Qed.

Lemma List_filter_all {A} (f : A -> bool) (l : list A) :
  Forall (fun x => f x = true) l -> List.filter f l = l.
Proof. induction 1 as [|x l Hx _ IH]; simpl; [done|]. by rewrite Hx, IH. Qed.

Lemma List_filter_none {A} (f : A -> bool) (l : list A) :
  Forall (fun x => f x = false) l -> List.filter f l = [].
Proof. induction 1 as [|x l Hx _ IH]; simpl; [done|]. by rewrite Hx. Qed.

(** The paths of the clips of one video differ in their numerals only. *)
Lemma os_path_join_clip_name output_dir base :
  exists prefix, forall n,
    os_path_join output_dir (clip_name base n) = prefix ++ format_03d n ++ txt ".mp4".
Proof.
  unfold os_path_join, clip_name.
  assert (forall n, startswith (base ++ txt "_clip_" ++ format_03d n ++ txt ".mp4") (txt "/")
                    = match base with [] => false | c :: _ => is_char "/" c end) as Hs.
  { intros n. destruct base as [|c base]; [reflexivity|].
    cbn [app txt list_ascii_of_string startswith]. by rewrite startswith_nil, andb_true_r. }
  destruct (match base with [] => false | c :: _ => is_char "/" c end) eqn:Hb.
  - exists (base ++ txt "_clip_"). intros n. rewrite Hs. by rewrite <- app_assoc.
  - destruct (negb (nonempty output_dir) || endswith output_dir (txt "/")).
    + exists (output_dir ++ base ++ txt "_clip_"). intros n. rewrite Hs.
      by rewrite <- !app_assoc.
    + exists (output_dir ++ txt "/" ++ base ++ txt "_clip_"). intros n. rewrite Hs.
      by rewrite <- !app_assoc.
Qed.

Lemma code_digit_char k : 0 <= k <= 9 -> code (digit_char k) = 48 + k.
Proof.
  intros Hk. apply (Z_range_cases (fun k => code (digit_char k) = 48 + k) 10 0); [|lia].
  by_range_cases 10.
Qed.

Lemma decimal_fuel_digit fuel n : 0 <= n < 10 -> decimal_fuel (S fuel) n = [digit_char n].
Proof. intros Hn. simpl. by rewrite (proj2 (Z.ltb_lt n 10)) by lia. Qed.

Lemma decimal_fuel_step fuel n :
  10 <= n -> decimal_fuel (S fuel) n = decimal_fuel fuel (n / 10) ++ [digit_char (n mod 10)].
Proof. intros Hn. simpl. by rewrite (proj2 (Z.ltb_ge n 10)) by lia. Qed.

(** [%03d] below 1000: three digits. *)
Lemma format_03d_small n :
  0 <= n < 1000 ->
  format_03d n = [digit_char (n / 100); digit_char (n / 10 mod 10); digit_char (n mod 10)].
Proof.
  intros Hn. unfold format_03d, decimal.
  destruct (Z.lt_ge_cases n 10) as [H10|H10].
  - rewrite decimal_fuel_digit by lia.
    rewrite (Z.div_small n 100), (Z.div_small n 10), (Z.mod_small n 10) by lia.
    reflexivity.
  - rewrite decimal_fuel_step by lia.
    destruct (Z.to_nat n) as [|f1] eqn:Hf1; [lia|].
    destruct (Z.lt_ge_cases n 100) as [H100|H100].
    + rewrite decimal_fuel_digit by (Z.div_mod_to_equations; lia).
      rewrite (Z.div_small n 100), (Z.mod_small (n / 10) 10)
        by (Z.div_mod_to_equations; lia).
      reflexivity.
    + rewrite decimal_fuel_step by (Z.div_mod_to_equations; lia).
      destruct f1 as [|f2]; [lia|].
      rewrite decimal_fuel_digit by (Z.div_mod_to_equations; lia).
      rewrite Z.div_div by lia. reflexivity.
Qed.

Lemma format_03d_lt i j tail :
  0 <= i -> i < j -> j < 1000 ->
  text_ltb (format_03d i ++ tail) (format_03d j ++ tail) = true.
Proof.
  intros Hi Hij Hj. rewrite !format_03d_small by lia.
  cbn [app]. rewrite !text_ltb_cons.
  rewrite !code_digit_char by (Z.div_mod_to_equations; lia).
  assert (forall a b, 0 <= a <= 9 -> 0 <= b <= 9 -> digit_char a = digit_char b -> a = b)
    as Hinj.
  { intros a b Ha Hb Hab. apply (f_equal code) in Hab.
    rewrite !code_digit_char in Hab by done. lia. }
  destruct (Z.lt_trichotomy (i / 100) (j / 100)) as [H|[H|H]];
    [left; lia| |exfalso; Z.div_mod_to_equations; lia].
  right. split; [by rewrite H|].
  destruct (Z.lt_trichotomy (i / 10 mod 10) (j / 10 mod 10)) as [H'|[H'|H']];
    [left; lia| |exfalso; Z.div_mod_to_equations; lia].
  right. split; [by rewrite H'|].
  left. Z.div_mod_to_equations; lia.
Qed.

Lemma Sorted_fmap_seqZ {B} (R : relation B) (f : Z -> B) (n : nat) : forall m,
  (forall i, m <= i -> i + 1 < m + Z.of_nat n -> R (f i) (f (i + 1))) ->
  Sorted R (f <$> seqZ m (Z.of_nat n)).
Proof.
  induction n as [|n IH]; intros m HR; [constructor|].
  rewrite Nat2Z.inj_succ, seqZ_cons by lia. rewrite fmap_cons.
  replace (Z.pred (Z.succ (Z.of_nat n))) with (Z.of_nat n) by lia.
  constructor.
  - apply IH. intros i Hi1 Hi2. apply HR; lia.
  - destruct n as [|n]; [constructor|].
    rewrite Nat2Z.inj_succ, seqZ_cons by lia. rewrite fmap_cons. constructor.
    replace (Z.succ m) with (m + 1) by lia. apply HR; lia.
Qed.

(** X15.  When the output directory holds the clips number 0 to n-1 of the
    video, in any order and among names that are not clips of it, and n is
    at most 1000, [segment_video_single] returns their paths in the order of
    their numbers: the position [process_single_file] records as
    [clip_index] is the number ffmpeg gave the clip. *)
Theorem clips_are_gathered_in_the_order_of_their_numbers
    (input_file output_dir : text) (names others : list text) (n : nat) :
  (n <= 1000)%nat ->
  names ≡ₚ (clip_name (base_name_of input_file) <$> seqZ 0 (Z.of_nat n)) ++ others ->
  Forall (fun f => is_clip_name (base_name_of input_file) f = false) others ->
  segment_video_single input_file output_dir names
  = (fun i => os_path_join output_dir (clip_name (base_name_of input_file) i))
      <$> seqZ 0 (Z.of_nat n).
Proof.
  intros Hn Hp Hothers. rewrite segment_video_single_eq.
  set (base := base_name_of input_file) in *.
  apply sort_with_text_unique.
  - rewrite (List_filter_Permutation _ _ _ Hp), List.filter_app.
    rewrite (List_filter_none _ others) by done. rewrite app_nil_r.
    rewrite List_filter_all; [by rewrite <- list_fmap_compose|].
    apply Forall_fmap, Forall_forall. intros i _. apply is_clip_name_clip_name.
  - destruct (os_path_join_clip_name output_dir base) as [prefix Hprefix].
    apply Sorted_fmap_seqZ. intros i Hi1 Hi2. unfold text_le.
    apply text_ltb_asym. rewrite !Hprefix, text_ltb_app.
    apply format_03d_lt; lia.
Qed.

Lemma clips_are_gathered_in_the_order_of_their_numbers_witness :
  let names := [txt "v_clip_001.mp4"; txt "notes.txt"; txt "v_clip_000.mp4"] in
  names ≡ₚ (clip_name (base_name_of (txt "/data/v.mp4")) <$> seqZ 0 (Z.of_nat 2))
           ++ [txt "notes.txt"]
  /\ segment_video_single (txt "/data/v.mp4") (txt "out") names
     = [txt "out/v_clip_000.mp4"; txt "out/v_clip_001.mp4"].
Proof.
  intros names.
  assert (names ≡ₚ (clip_name (base_name_of (txt "/data/v.mp4")) <$> seqZ 0 (Z.of_nat 2))
                   ++ [txt "notes.txt"]) as Hp.
  { symmetry. exact (Permutation_cons_append [txt "v_clip_001.mp4"; txt "notes.txt"]
                       (txt "v_clip_000.mp4")). }
  split; [exact Hp|].
  exact (clips_are_gathered_in_the_order_of_their_numbers
           (txt "/data/v.mp4") (txt "out") names [txt "notes.txt"] 2
           ltac:(lia) Hp
           (@List.Forall_cons _ _ (txt "notes.txt") [] eq_refl (List.Forall_nil _))).
Defined.

Lemma StronglySorted_lookup_lt {A} (R : relation A) (l : list A) :
  StronglySorted R l ->
  forall i j x y, (i < j)%nat -> l !! i = Some x -> l !! j = Some y -> R x y.
Proof.
  induction 1 as [|a l _ IH Ha]; intros i j x y Hij Hi Hj; [done|].
  destruct j as [|j]; [lia|]. destruct i as [|i]; simpl in *.
  - injection Hi as <-. rewrite Forall_forall in Ha.
    apply Ha. by eapply list_elem_of_lookup_2.
  - apply (IH i j); [lia|done..].
Qed.

Lemma format_03d_1000_lt j tail :
  101 <= j <= 999 ->
  text_ltb (format_03d 1000 ++ tail) (format_03d j ++ tail) = true.
Proof.
  intros Hj. rewrite (format_03d_small j) by lia.
  change (format_03d 1000) with (txt "1000").
  cbn [app txt list_ascii_of_string]. rewrite !text_ltb_cons.
  rewrite !code_digit_char by (Z.div_mod_to_equations; lia).
  change (code "1") with 49. change (code "0") with 48.
  destruct (Z.lt_trichotomy 1 (j / 100)) as [H|[H|H]];
    [left; lia| |exfalso; Z.div_mod_to_equations; lia].
  right. split; [by rewrite <- H|].
  destruct (Z.lt_trichotomy 0 (j / 10 mod 10)) as [H'|[H'|H']];
    [left; lia| |exfalso; Z.div_mod_to_equations; lia].
  right. split; [by rewrite <- H'|].
  left. Z.div_mod_to_equations; lia.
Qed.

Lemma segment_video_single_elem input_file output_dir names f :
  f ∈ names -> is_clip_name (base_name_of input_file) f = true ->
  os_path_join output_dir f ∈ segment_video_single input_file output_dir names.
Proof.
  intros Hf Hclip. rewrite segment_video_single_eq.
  rewrite sort_with_Permutation.
  apply list_elem_of_fmap_2, list_elem_of_In, filter_In.
  split; [by apply list_elem_of_In|done].
Qed.

(** X16.  The numeral of clip 1000 has four digits, and the sort of
    [segment_video_single] is the order of strings: whenever the output
    directory holds clip 1000 and a clip j with 101 <= j <= 999 of the
    video, both paths are returned and the path of clip 1000 stands before
    the path of clip j, so positions no longer follow the clips' numbers. *)
Theorem clip_1000_is_gathered_before_clips_101_to_999
    (input_file output_dir : text) (names : list text) (j : Z) :
  let base := base_name_of input_file in
  let gathered := segment_video_single input_file output_dir names in
  let path n := os_path_join output_dir (clip_name base n) in
  101 <= j <= 999 ->
  clip_name base 1000 ∈ names ->
  clip_name base j ∈ names ->
  path 1000 ∈ gathered /\ path j ∈ gathered
  /\ forall i1 i2,
       gathered !! i1 = Some (path 1000) -> gathered !! i2 = Some (path j) ->
       (i1 < i2)%nat.
Proof.
  intros base gathered path Hj H1000 Hjn.
  split; [|split].
  - apply segment_video_single_elem; [done|apply is_clip_name_clip_name].
  - apply segment_video_single_elem; [done|apply is_clip_name_clip_name].
  - intros i1 i2 Hi1 Hi2.
    assert (text_ltb (path 1000) (path j) = true) as Hlt.
    { destruct (os_path_join_clip_name output_dir base) as [prefix Hprefix].
      unfold path. rewrite !Hprefix, text_ltb_app. by apply format_03d_1000_lt. }
    assert (StronglySorted text_le gathered) as Hsorted.
    { apply Sorted_StronglySorted; [exact text_le_trans|].
      unfold gathered. rewrite segment_video_single_eq.
      apply sort_with_Sorted, text_ltb_asym. }
    destruct (Nat.lt_trichotomy i1 i2) as [H|[H|H]]; [done|exfalso..].
    + subst i2. rewrite Hi1 in Hi2. injection Hi2 as Heq.
      rewrite Heq, text_ltb_irrefl in Hlt. done.
    + pose proof (StronglySorted_lookup_lt _ _ Hsorted i2 i1 _ _ H Hi2 Hi1) as Hle.
      unfold text_le in Hle. congruence.
Qed.

Lemma clip_1000_is_gathered_before_clips_101_to_999_witness :
  let base := base_name_of (txt "/data/v.mp4") in
  let names := [clip_name base 101; clip_name base 1000] in
  segment_video_single (txt "/data/v.mp4") (txt "out") names
  = [txt "out/v_clip_1000.mp4"; txt "out/v_clip_101.mp4"]
  /\ forall i1 i2,
       segment_video_single (txt "/data/v.mp4") (txt "out") names !! i1
         = Some (txt "out/v_clip_1000.mp4") ->
       segment_video_single (txt "/data/v.mp4") (txt "out") names !! i2
         = Some (txt "out/v_clip_101.mp4") ->
       (i1 < i2)%nat.
Proof.
  intros base names. split; [reflexivity|].
  exact (proj2 (proj2 (clip_1000_is_gathered_before_clips_101_to_999
                         (txt "/data/v.mp4") (txt "out") names 101 ltac:(lia)
                         (list_elem_of_further _ _ _ (list_elem_of_here _ _))
                         (list_elem_of_here _ _)))).
Defined.
